(** * token-pulse: pulse scoring over an upstream pair list

    A shallow embedding of [src/index.js] (the library) and [api/pulse.js]
    (the HTTP handler with its inlined copies of the library functions).

    Conventions of the embedding.
    - A JavaScript number is an IEEE-754 binary64 value: Rocq's primitive
      [float].  [>], [>=], [/] and [+] are [PrimFloat.ltb], [PrimFloat.leb],
      [PrimFloat.div] and [PrimFloat.add].
    - A field that may be missing ([undefined], or JSON [null], which [?.]
      and [||] treat alike) is an [option]; the name and the symbol of
      the base token, which a template prints, keep [undefined] and
      [null] apart ([Js.text]).  Fields that are present have the type
      the upstream schema gives them: numbers for the metrics, strings
      for names, identifiers and [priceUsd].
    - A string is a [string] of bytes, the UTF-8 encoding of the text.
      [slice] counts UTF-16 code units on that encoding.  [trim] and
      [toUpperCase] are the ASCII functions, exact on addresses and
      labels made of ASCII characters.
    - The platform ([fetch], the clock, [parseFloat], [Number::toString])
      is a parameter of the model.  [toFixed] follows ECMA-262. *)

From Stdlib Require Import Floats ZArith Bool List Lia Arith.
From Stdlib Require Import Strings.String Strings.Ascii.
From Stdlib Require Import DecimalString.
Import ListNotations.

Set Warnings "-inexact-float".
Open Scope string_scope.

(** ** JavaScript values used by the program *)

Module Js.

(** [ToBoolean] on a number: [0], [-0] and [NaN] are falsy. *)
Definition truthy (x : float) : bool :=
  negb (PrimFloat.is_zero x || PrimFloat.is_nan x).

(** [ToBoolean] on a number that may be [undefined]. *)
Definition truthy_opt (x : option float) : bool :=
  match x with
  | Some v => truthy v
  | None => false
  end.

(** [a || b] where both operands may be [undefined]. *)
Definition or (a b : option float) : option float :=
  if truthy_opt a then a else b.

(** [a || 0]. *)
Definition or0 (a : option float) : float :=
  match a with
  | Some v => if truthy v then v else 0%float
  | None => 0%float
  end.

(** [a > b] and [a >= b] and [a < b]. *)
Definition gt (a b : float) : bool := PrimFloat.ltb b a.
Definition ge (a b : float) : bool := PrimFloat.leb b a.
Definition lt (a b : float) : bool := PrimFloat.ltb a b.

(** A string that may be [null], tested by [if (s)] or [s || d]: the
    string when it is truthy ([null] and the empty string are falsy). *)
Definition if_truthy (s : option string) : option string :=
  match s with
  | Some s => if s =? EmptyString then None else Some s
  | None => None
  end.

(** A string field of a JSON object as the program reads it: missing
    ([undefined]), [null], or the string. *)
Inductive text : Type :=
  | Undefined
  | Null
  | Text (s : string).

(** Interpolation of such a field in a template. *)
Definition interp (s : text) : string :=
  match s with
  | Text s => s
  | Null => "null"
  | Undefined => "undefined"
  end.

(** The high surrogate of the code point above U+FFFF that the four
    bytes encode, as the three bytes that encode the surrogate itself. *)
Definition high_surrogate (c1 c2 c3 c4 : ascii) : string :=
  let cp :=
    ((N_of_ascii c1 mod 8) * 262144 + (N_of_ascii c2 mod 64) * 4096
     + (N_of_ascii c3 mod 64) * 64 + N_of_ascii c4 mod 64)%N in
  let hs := (55296 + (cp - 65536) / 1024)%N in
  String (ascii_of_N 237)
    (String (ascii_of_N (128 + (hs / 64) mod 64))
       (String (ascii_of_N (128 + hs mod 64)) EmptyString)).

(** The first [n] UTF-16 code units of a string given by its UTF-8
    bytes: a sequence of one, two or three bytes is one unit, a sequence
    of four bytes is two, and a cut between those two leaves the high
    surrogate. *)
Fixpoint take_units (n : nat) (s : string) : string :=
  match n, s with
  | O, _ => EmptyString
  | _, EmptyString => EmptyString
  | S n', String c1 r1 =>
      let b := nat_of_ascii c1 in
      if (b <? 192)%nat then String c1 (take_units n' r1)
      else if (b <? 224)%nat then
        match r1 with
        | String c2 r2 => String c1 (String c2 (take_units n' r2))
        | EmptyString => s
        end
      else if (b <? 240)%nat then
        match r1 with
        | String c2 (String c3 r3) =>
            String c1 (String c2 (String c3 (take_units n' r3)))
        | _ => s
        end
      else
        match r1 with
        | String c2 (String c3 (String c4 r4)) =>
            match n' with
            | O => high_surrogate c1 c2 c3 c4
            | S n'' =>
                String c1
                  (String c2 (String c3 (String c4 (take_units n'' r4))))
            end
        | _ => s
        end
  end.

(** [s.slice(0, n)]. *)
Definition slice0 (n : nat) (s : string) : string := take_units n s.

Definition upper_ascii (c : ascii) : ascii :=
  let n := nat_of_ascii c in
  if (97 <=? n)%nat && (n <=? 122)%nat then ascii_of_nat (n - 32) else c.

(** [s.toUpperCase()]. *)
Fixpoint toUpperCase (s : string) : string :=
  match s with
  | EmptyString => EmptyString
  | String c r => String (upper_ascii c) (toUpperCase r)
  end.

(** The ASCII white space removed by [trim]: space, tab, LF, VT, FF,
    CR.  [trim] also removes the white space outside ASCII (U+00A0,
    U+FEFF and the like), which this function leaves: it is [trim] on
    strings of ASCII characters, and removes no more than [trim] on the
    others. *)
Definition is_space (c : ascii) : bool :=
  let n := nat_of_ascii c in
  (n =? 32)%nat || ((9 <=? n)%nat && (n <=? 13)%nat).

Fixpoint trimStart (s : string) : string :=
  match s with
  | EmptyString => EmptyString
  | String c r => if is_space c then trimStart r else s
  end.

(** [trimEnd]: a character is kept when something other than white
    space follows it or it is not white space itself. *)
Fixpoint trimEnd (s : string) : string :=
  match s with
  | EmptyString => EmptyString
  | String c r =>
      match trimEnd r with
      | EmptyString => if is_space c then EmptyString else String c EmptyString
      | r' => String c r'
      end
  end.

(** [s.trim()]. *)
Definition trim (s : string) : string := trimEnd (trimStart s).

(** [s.split(sep)] for a one-character separator: always at least one
    piece. *)
Fixpoint split (sep : ascii) (s : string) : list string :=
  match s with
  | EmptyString => [EmptyString]
  | String c r =>
      if Ascii.eqb c sep then EmptyString :: split sep r
      else match split sep r with
           | piece :: pieces => String c piece :: pieces
           | [] => [String c EmptyString]
           end
  end.

(** Decimal digits of a natural number and of a non-negative integer. *)
Definition digits (n : Z) : string :=
  NilZero.string_of_uint (N.to_uint (Z.to_N n)).

Definition nat_digits (n : nat) : string := digits (Z.of_nat n).

Fixpoint zeros (k : nat) : string :=
  match k with
  | O => EmptyString
  | S k => String "0" (zeros k)
  end.

(** ECMA-262 [Number.prototype.toFixed], step "let n be an integer for
    which n / 10^f - x is as close to zero as possible; if there are two
    such n, pick the larger", for x = m * 2^e > 0 taken exactly. *)
Definition nearest_scaled (m : positive) (e : Z) (f : nat) : Z :=
  let num := (Z.pos m * 10 ^ Z.of_nat f)%Z in
  if (0 <=? e)%Z then (num * 2 ^ e)%Z
  else let d := (2 ^ (- e))%Z in ((2 * num + d) / (2 * d))%Z.

(** x >= 10^21 for x = m * 2^e, exactly. *)
Definition ge_1e21 (m : positive) (e : Z) : bool :=
  if (0 <=? e)%Z then (10 ^ 21 <=? Z.pos m * 2 ^ e)%Z
  else (10 ^ 21 * 2 ^ (- e) <=? Z.pos m)%Z.

(** The digits of [n] with a decimal point before the last [f] of them,
    padded on the left with zeros up to [f + 1] digits. *)
Definition fixed_point (n : Z) (f : nat) : string :=
  let m := digits n in
  if (f =? 0)%nat then m
  else
    let k := String.length m in
    let m := if (k <=? f)%nat then zeros (f + 1 - k) ++ m else m in
    let k := String.length m in
    substring 0 (k - f) m ++ "." ++ substring (k - f) f m.

Section ToFixed.

(** [Number::toString], used by [toFixed] only from 10^21 upwards. *)
Variable numberToString : float -> string.

(** [x.toFixed(f)]. *)
Definition toFixed (x : float) (f : nat) : string :=
  match Prim2SF x with
  | S754_nan => "NaN"
  | S754_infinity s => if s then "-Infinity" else "Infinity"
  | S754_zero _ => fixed_point 0 f
  | S754_finite s m e =>
      (if s then "-" else EmptyString) ++
      (if ge_1e21 m e then numberToString (PrimFloat.abs x)
       else fixed_point (nearest_scaled m e f) f)
  end.

End ToFixed.

End Js.

(** ** Data model *)

(** One trading pair as the upstream reports it. *)
Module Pair.

Record Volume := { v_h24 : option float }.
Record PriceChange := { pc_h24 : option float }.
Record TxnCount := { buys : option float; sells : option float }.
Record Txns := { t_h24 : option TxnCount }.
Record Liquidity := { usd : option float }.
Record BaseToken := { name : Js.text; symbol : Js.text }.

Record t := {
  volume : option Volume;
  marketCap : option float;
  fdv : option float;
  priceChange : option PriceChange;
  txns : option Txns;
  liquidity : option Liquidity;
  priceUsd : option string;
  baseToken : option BaseToken;
  dexId : option string;
  chainId : option string;
  url : option string
}.

(** [pair.volume?.h24], [pair.priceChange?.h24], [pair.txns?.h24?.buys],
    [pair.txns?.h24?.sells], [pair.liquidity?.usd],
    [pair.baseToken?.name], [pair.baseToken?.symbol]. *)
Definition volume_h24 (p : t) : option float :=
  match volume p with Some v => v_h24 v | None => None end.

Definition priceChange_h24 (p : t) : option float :=
  match priceChange p with Some c => pc_h24 c | None => None end.

Definition txns_h24 (p : t) : option TxnCount :=
  match txns p with Some x => t_h24 x | None => None end.

Definition txns_h24_buys (p : t) : option float :=
  match txns_h24 p with Some c => buys c | None => None end.

Definition txns_h24_sells (p : t) : option float :=
  match txns_h24 p with Some c => sells c | None => None end.

Definition liquidity_usd (p : t) : option float :=
  match liquidity p with Some l => usd l | None => None end.

Definition baseToken_name (p : t) : Js.text :=
  match baseToken p with Some b => name b | None => Js.Undefined end.

Definition baseToken_symbol (p : t) : Js.text :=
  match baseToken p with Some b => symbol b | None => Js.Undefined end.

(** A pair with no field at all. *)
Definition empty : t :=
  {| volume := None; marketCap := None; fdv := None; priceChange := None;
     txns := None; liquidity := None; priceUsd := None; baseToken := None;
     dexId := None; chainId := None; url := None |}.

End Pair.

(** The per-token output record; a field the object literal does not
    write is [None]. *)
Module Result.

Record Token := { name : Js.text; symbol : Js.text }.

Record Stats := {
  price : float;
  mcap : float;
  volume24h : float;
  change24h : float;
  txns24h : float;
  liquidity : float
}.

Record PairInfo := {
  dex : option string;
  chain : option string;
  url : option string
}.

Record t := {
  address : string;
  found : bool;
  pulse : string;
  token : option Token;
  stats : option Stats;
  pair : option PairInfo;
  pairCount : option nat;
  timestamp : option string;
  message : option string;
  error : option string
}.

End Result.

(** ** Pulse scorer: [calculatePulse] *)

(** The local constants of [calculatePulse]. *)
Record Metrics := {
  vol24h : float;
  mcap : float;
  change24h : float;
  txns24h : float;
  volRatio : float
}.

Definition metrics (pair : Pair.t) : Metrics :=
  let vol24h := Js.or0 (Pair.volume_h24 pair) in
  let mcap := Js.or0 (Js.or (Pair.marketCap pair) (Pair.fdv pair)) in
  let change24h := Js.or0 (Pair.priceChange_h24 pair) in
  let txns24h :=
    PrimFloat.add (Js.or0 (Pair.txns_h24_buys pair))
                  (Js.or0 (Pair.txns_h24_sells pair)) in
  let volRatio :=
    if Js.gt mcap 0 then PrimFloat.div vol24h mcap else 0%float in
  {| vol24h := vol24h; mcap := mcap; change24h := change24h;
     txns24h := txns24h; volRatio := volRatio |}.

(** The value of [score] when the label mapping is reached. *)
Definition score (m : Metrics) : Z :=
  let score := 0%Z in
  let score :=
    if Js.gt (vol24h m) 10000 then (score + 3)%Z
    else if Js.gt (vol24h m) 1000 then (score + 2)%Z
    else if Js.gt (vol24h m) 100 then (score + 1)%Z
    else score in
  let score :=
    if Js.gt (txns24h m) 50 then (score + 2)%Z
    else if Js.gt (txns24h m) 10 then (score + 1)%Z
    else score in
  let score :=
    if Js.gt (volRatio m) 0.1 then (score + 2)%Z
    else if Js.gt (volRatio m) 0.01 then (score + 1)%Z
    else score in
  let score := if Js.gt (change24h m) 20 then (score + 1)%Z else score in
  let score := if Js.lt (change24h m) (-50) then (score - 2)%Z else score in
  score.

Definition calculatePulse (pair : option Pair.t) : string :=
  match pair with
  | None => "dead"
  | Some p =>
      let score := score (metrics p) in
      if (6 <=? score)%Z then "strong"
      else if (4 <=? score)%Z then "stable"
      else if (2 <=? score)%Z then "weak"
      else if (0 <=? score)%Z then "critical"
      else "dead"
  end.

(** ** Platform: promises, the upstream and the request log *)

(** How a call ends: with a value, or with a thrown error, of which the
    program only ever reads [message]. *)
Inductive Outcome (A : Type) : Type :=
  | Returned (value : A)
  | Thrown (message : string).

Arguments Returned {A} value.
Arguments Thrown {A} message.

(** A promise that has been created: when it settles and how (fulfilled
    with the value returned, rejected with the error thrown). *)
Record Promise (A : Type) : Type := {
  settles_at : nat;
  state : Outcome A
}.

Arguments settles_at {A} p.
Arguments state {A} p.

Module P.

(** The rest of an [async] function after its single [await]. *)
Definition and_then {A B} (p : Promise A) (k : nat -> A -> Outcome B)
  : Promise B :=
  {| settles_at := settles_at p;
     state := match state p with
              | Returned a => k (settles_at p) a
              | Thrown m => Thrown m
              end |}.

(** [p.catch(h)]. *)
Definition catch {A} (p : Promise A) (h : string -> A) : Promise A :=
  {| settles_at := settles_at p;
     state := match state p with
              | Returned a => Returned a
              | Thrown m => Returned (h m)
              end |}.

(** The rejection that settles first, the leftmost one among those
    that settle together. *)
Fixpoint first_rejection {A} (ps : list (Promise A))
  : option (nat * string) :=
  match ps with
  | [] => None
  | p :: ps =>
      match state p, first_rejection ps with
      | Thrown m, Some (t, m') =>
          if (settles_at p <=? t)%nat then Some (settles_at p, m)
          else Some (t, m')
      | Thrown m, None => Some (settles_at p, m)
      | Returned _, r => r
      end
  end.

Fixpoint values {A} (ps : list (Promise A)) : list A :=
  match ps with
  | [] => []
  | p :: ps =>
      match state p with
      | Returned a => a :: values ps
      | Thrown _ => values ps
      end
  end.

(** [Promise.all(ps)]: rejected as soon as one promise is, with its
    error; fulfilled with the values in the order of [ps] once all are. *)
Definition all {A} (ps : list (Promise A)) : Promise (list A) :=
  match first_rejection ps with
  | Some (t, m) => {| settles_at := t; state := Thrown m |}
  | None => {| settles_at := list_max (map settles_at ps);
               state := Returned (values ps) |}
  end.

End P.

(** A computation that issues upstream requests: it extends the log of
    the URLs requested so far. *)
Definition M (A : Type) : Type := list string -> A * list string.

Definition ret {A} (a : A) : M A := fun log => (a, log).

Definition bind {A B} (c : M A) (k : A -> M B) : M B :=
  fun log => let (a, log') := c log in k a log'.

Notation "x <- c ;; k" := (bind c (fun x => k))
  (at level 61, c at next level, right associativity).

(** [xs.map(f)] for an [f] that issues requests: in the order of [xs]. *)
Fixpoint mapM {A B} (f : A -> M B) (xs : list A) : M (list B) :=
  match xs with
  | [] => ret []
  | x :: xs => y <- f x ;; ys <- mapM f xs ;; ret (y :: ys)
  end.

(** [xs.map(f)] for an [f] that may throw: the first error in the order
    of [xs] ends the loop. *)
Fixpoint map_outcome {A B} (f : A -> Outcome B) (xs : list A)
  : Outcome (list B) :=
  match xs with
  | [] => Returned []
  | x :: xs =>
      match f x with
      | Thrown m => Thrown m
      | Returned y =>
          match map_outcome f xs with
          | Thrown m => Thrown m
          | Returned ys => Returned (y :: ys)
          end
      end
  end.

(** What the aggregator does with one GET.  A body is either not JSON,
    or a JSON object whose [pairs] is missing ([undefined] or [null]) or
    a list of pair objects. *)
Inductive JsonBody : Type :=
  | InvalidJson (message : string)
  | JsonObject (pairs : option (list Pair.t)).

Inductive FetchResult : Type :=
  | NetworkError (message : string)
  | HttpResponse (status : nat) (body : JsonBody).

Record Exchange : Type := {
  latency : nat;
  result : FetchResult
}.

(** [res.ok]. *)
Definition res_ok (status : nat) : bool :=
  (200 <=? status)%nat && (status <=? 299)%nat.

Definition DEXSCREENER_API : string :=
  "https://api.dexscreener.com/latest/dex/tokens".

(** ** The core: fetch, select, score, assemble, format *)

Section Core.

(** The [k]-th GET of a request, to the given URL. *)
Variable upstream : nat -> string -> Exchange.

(** [new Date().toISOString()] at an instant. *)
Variable clock : nat -> string.

Variable parseFloat : option string -> float.

Variable numberToString : float -> string.

Definition fetch (url : string) : M Exchange :=
  fun log => (upstream (List.length log) url, (log ++ [url])%list).

(** The URL of the GET for one address. *)
Definition tokenUrl (address : string) : string :=
  DEXSCREENER_API ++ "/" ++ address.

(** [fetchTokenData] from [await fetch(...)] on: the status check,
    [res.json()] and [data.pairs || []]. *)
Definition pairsOf (res : Exchange) : Promise (list Pair.t) :=
  {| settles_at := latency res;
     state :=
       match result res with
       | NetworkError m => Thrown m
       | HttpResponse status body =>
           if negb (res_ok status) then
             Thrown ("Dexscreener API error: " ++ Js.nat_digits status)
           else
             match body with
             | InvalidJson m => Thrown m
             | JsonObject (Some pairs) => Returned pairs
             | JsonObject None => Returned []
             end
       end |}.

Definition fetchTokenData (address : string) : M (Promise (list Pair.t)) :=
  res <- fetch (tokenUrl address) ;;
  ret (pairsOf res).

(** [pairs.reduce((best, pair) => ..., first)]. *)
Definition mainPairOf (pairs : list Pair.t) (first : Pair.t) : Pair.t :=
  fold_left
    (fun best pair =>
       if Js.gt (Js.or0 (Pair.volume_h24 pair)) (Js.or0 (Pair.volume_h24 best))
       then pair else best)
    pairs first.

(** The body of [getPulse] after [await fetchTokenData(address)], run
    at instant [now]. *)
Definition assemble (address : string) (now : nat) (pairs : list Pair.t)
  : Result.t :=
  match pairs with
  | [] =>
      {| Result.address := address;
         Result.found := false;
         Result.pulse := "dead";
         Result.token := None;
         Result.stats := None;
         Result.pair := None;
         Result.pairCount := None;
         Result.timestamp := None;
         Result.message := Some "No trading pairs found";
         Result.error := None |}
  | first :: _ =>
      let mainPair := mainPairOf pairs first in
      let pulse := calculatePulse (Some mainPair) in
      {| Result.address := address;
         Result.found := true;
         Result.pulse := pulse;
         Result.token :=
           Some {| Result.name := Pair.baseToken_name mainPair;
                   Result.symbol := Pair.baseToken_symbol mainPair |};
         Result.stats :=
           Some {| Result.price :=
                     Js.or0 (Some (parseFloat (Pair.priceUsd mainPair)));
                   Result.mcap :=
                     Js.or0 (Js.or (Pair.marketCap mainPair)
                                   (Pair.fdv mainPair));
                   Result.volume24h := Js.or0 (Pair.volume_h24 mainPair);
                   Result.change24h :=
                     Js.or0 (Pair.priceChange_h24 mainPair);
                   Result.txns24h :=
                     PrimFloat.add
                       (Js.or0 (Pair.txns_h24_buys mainPair))
                       (Js.or0 (Pair.txns_h24_sells mainPair));
                   Result.liquidity :=
                     Js.or0 (Pair.liquidity_usd mainPair) |};
         Result.pair :=
           Some {| Result.dex := Pair.dexId mainPair;
                   Result.chain := Pair.chainId mainPair;
                   Result.url := Pair.url mainPair |};
         Result.pairCount := Some (List.length pairs);
         Result.timestamp := Some (clock now);
         Result.message := None;
         Result.error := None |}
  end.

Definition getPulse (address : string) : M (Promise Result.t) :=
  pairs <- fetchTokenData address ;;
  ret (P.and_then pairs (fun now pairs => Returned (assemble address now pairs))).

(** The object built by the [catch] handler of [getBatchPulse]. *)
Definition errorResult (addr : string) (message : string) : Result.t :=
  {| Result.address := addr;
     Result.found := false;
     Result.pulse := "error";
     Result.token := None;
     Result.stats := None;
     Result.pair := None;
     Result.pairCount := None;
     Result.timestamp := None;
     Result.message := None;
     Result.error := Some message |}.

Definition getBatchPulse (addresses : list string)
  : M (Promise (list Result.t)) :=
  promises <-
    mapM (fun addr =>
            p <- getPulse addr ;;
            ret (P.catch p (fun message => errorResult addr message)))
         addresses ;;
  ret (P.all promises).

Definition formatNum (n : float) : string :=
  if Js.ge n 1e6 then Js.toFixed numberToString (PrimFloat.div n 1e6) 1 ++ "M"
  else if Js.ge n 1e3 then
    Js.toFixed numberToString (PrimFloat.div n 1e3) 1 ++ "K"
  else Js.toFixed numberToString n 0.

Definition emojiTable : list (string * string) :=
  [ ("strong", "💪"); ("stable", "✅"); ("weak", "⚠️");
    ("critical", "🔴"); ("dead", "💀"); ("error", "❌") ].

(** [table[key]] for a key that is one of the table's own or no property
    of an object at all: the members every object inherits
    ([constructor], [toString] and the like) are not in the table, and
    the theorems on the lookup are stated for the pulse labels. *)
Fixpoint lookup (key : string) (table : list (string * string))
  : option string :=
  match table with
  | [] => None
  | (k, v) :: table => if k =? key then Some v else lookup key table
  end.

Definition formatPulseSummary (result : Result.t) : Outcome string :=
  if negb (Result.found result) then
    Returned (Js.slice0 10 (Result.address result) ++ "... — "
              ++ Result.pulse result)
  else
    let pulse := Result.pulse result in
    let emoji :=
      match lookup pulse emojiTable with
      | Some e => e
      | None => "❓"
      end in
    match Result.token result, Result.stats result with
    | None, _ =>
        Thrown "Cannot read properties of undefined (reading 'symbol')"
    | Some _, None =>
        Thrown "Cannot read properties of undefined (reading 'price')"
    | Some token, Some stats =>
        Returned
          (emoji ++ " $" ++ Js.interp (Result.symbol token) ++ " — "
           ++ Js.toUpperCase pulse
           ++ " | $" ++ Js.toFixed numberToString (Result.price stats) 6
           ++ " | mcap $" ++ formatNum (Result.mcap stats)
           ++ " | vol $" ++ formatNum (Result.volume24h stats)
           ++ " | "
           ++ (if Js.ge (Result.change24h stats) 0 then "+" else EmptyString)
           ++ Js.toFixed numberToString (Result.change24h stats) 1
           ++ "%")
    end.

(** *** The HTTP handler of [api/pulse.js] *)

(** [url.searchParams.get] gives [null] for a parameter that is not
    in the query. *)
Record Request : Type := {
  method : string;
  q_token : option string;
  q_tokens : option string;
  q_format : option string
}.

(** The object handed to [JSON.stringify] ([NoBody] for [null]). *)
Inductive Body : Type :=
  | NoBody
  | UsageError (error usage example : string)
  | LimitError (error message : string)
  | Summary (count : nat) (summaries : list string)
            (results : list Result.t)
  | Single (result : option Result.t)
  | Batch (count : nat) (results : list Result.t)
  | InternalError (error message : string).

Record Response : Type := {
  status : nat;
  headers : list (string * string);
  body : Body
}.

Definition corsHeaders : list (string * string) :=
  [ ("Content-Type", "application/json");
    ("Access-Control-Allow-Origin", "*");
    ("Access-Control-Allow-Methods", "GET, OPTIONS");
    ("Cache-Control", "public, max-age=30") ].

Definition respond (status : nat) (body : Body) : Response :=
  {| status := status; headers := corsHeaders; body := body |}.

(** [tokens.split(',').map(t => t.trim()).filter(Boolean)]. *)
Definition splitTokens (tokens : string) : list string :=
  filter (fun t => negb (t =? EmptyString)) (map Js.trim (Js.split "," tokens)).

(** The [if (token) ... else if (tokens) ... else] of the handler:
    [None] stands for the early return of the last branch. *)
Definition parseAddresses (req : Request) : option (list string) :=
  match Js.if_truthy (q_token req) with
  | Some token => Some [token]
  | None =>
      match Js.if_truthy (q_tokens req) with
      | Some tokens => Some (splitTokens tokens)
      | None => None
      end
  end.

(** The handler from [await Promise.all(...)] on: the rendering of the
    results, and the [catch] block for what the [try] block throws. *)
Definition respondTo (format : string) (addresses : list string)
  (settled : Outcome (list Result.t)) : Response :=
  match settled with
  | Thrown m => respond 500 (InternalError "Internal error" m)
  | Returned results =>
      if format =? "summary" then
        match map_outcome formatPulseSummary results with
        | Thrown m => respond 500 (InternalError "Internal error" m)
        | Returned summaries =>
            respond 200 (Summary (List.length results) summaries results)
        end
      else if (List.length addresses =? 1)%nat then
        respond 200 (Single (nth_error results 0))
      else
        respond 200 (Batch (List.length results) results)
  end.

(** [url.searchParams.get('format') || 'full']. *)
Definition formatOf (req : Request) : string :=
  match Js.if_truthy (q_format req) with
  | Some f => f
  | None => "full"
  end.

Definition handler (req : Request) : M Response :=
  let format := formatOf req in
  if method req =? "OPTIONS" then ret (respond 200 NoBody)
  else
    match parseAddresses req with
    | None =>
        ret (respond 400
               (UsageError
                  "Missing token address"
                  "GET /api/pulse?token=0x... or GET /api/pulse?tokens=0x...,0x..."
                  "/api/pulse?token=0x4dc5f49fc95427b984f27db843755787589314c0"))
    | Some addresses =>
        if (10 <? List.length addresses)%nat then
          ret (respond 400
                 (LimitError "Too many tokens"
                             "Maximum 10 tokens per request"))
        else
          promises <- mapM getPulse addresses ;;
          ret (respondTo format addresses (state (P.all promises)))
    end.

End Core.

(** ** The specification's wording, for comparison with the code *)

Module Spec.

(** "add 3 if vol24h > 10000, else 2 if vol24h > 1000, else 1 if
    vol24h > 100". *)
Definition volume_tier (vol24h : float) : Z :=
  if Js.gt vol24h 10000 then 3
  else if Js.gt vol24h 1000 then 2
  else if Js.gt vol24h 100 then 1
  else 0.

(** "add 2 if txns24h > 50, else 1 if txns24h > 10". *)
Definition transaction_tier (txns24h : float) : Z :=
  if Js.gt txns24h 50 then 2 else if Js.gt txns24h 10 then 1 else 0.

(** "add 2 if volRatio > 0.1, else 1 if volRatio > 0.01". *)
Definition turnover_tier (volRatio : float) : Z :=
  if Js.gt volRatio 0.1 then 2 else if Js.gt volRatio 0.01 then 1 else 0.

(** "add 1 if change24h > 20". *)
Definition momentum_bonus (change24h : float) : Z :=
  if Js.gt change24h 20 then 1 else 0.

(** "subtract 2 if change24h < -50". *)
Definition momentum_penalty (change24h : float) : Z :=
  if Js.lt change24h (-50) then 2 else 0.

Definition score (vol24h txns24h volRatio change24h : float) : Z :=
  0 + volume_tier vol24h + transaction_tier txns24h
    + turnover_tier volRatio + momentum_bonus change24h
    - momentum_penalty change24h.

(** "score >= 6 gives strong, >= 4 stable, >= 2 weak, >= 0 critical,
    otherwise dead". *)
Definition label (score : Z) : string :=
  if (score >=? 6)%Z then "strong"
  else if (score >=? 4)%Z then "stable"
  else if (score >=? 2)%Z then "weak"
  else if (score >=? 0)%Z then "critical"
  else "dead".

(** The emoji mapping of the response formatter. *)
Definition emoji (pulse : string) : string :=
  if pulse =? "strong" then "💪"
  else if pulse =? "stable" then "✅"
  else if pulse =? "weak" then "⚠️"
  else if pulse =? "critical" then "🔴"
  else if pulse =? "dead" then "💀"
  else if pulse =? "error" then "❌"
  else "❓".

Section Formatting.

Variable numberToString : float -> string.

(** "values >= 1,000,000 are formatted as value/1e6 to 1 decimal plus
    M, values >= 1,000 as value/1e3 to 1 decimal plus K, and otherwise
    as an integer". *)
Definition formatted (value : float) : string :=
  if Js.ge value 1000000 then
    Js.toFixed numberToString (value / 1000000)%float 1 ++ "M"
  else if Js.ge value 1000 then
    Js.toFixed numberToString (value / 1000)%float 1 ++ "K"
  else Js.toFixed numberToString value 0.

(** "<sign><change to 1 decimal>%": a plus sign for a change that is
    not negative, the minus sign of the number otherwise. *)
Definition signed_change (change : float) : string :=
  (if Js.ge change 0 then "+" else EmptyString)
  ++ Js.toFixed numberToString change 1 ++ "%".

(** "<emoji> $<symbol> — <PULSE_UPPERCASE> | $<price to 6 decimals> |
    mcap $<formatted> | vol $<formatted> | <sign><change to 1
    decimal>%". *)
Definition found_line (pulse : string) (symbol : Js.text)
  (price mcap volume24h change24h : float) : string :=
  String.concat " | "
    [ emoji pulse ++ " $" ++ Js.interp symbol ++ " — "
        ++ Js.toUpperCase pulse;
      "$" ++ Js.toFixed numberToString price 6;
      "mcap $" ++ formatted mcap;
      "vol $" ++ formatted volume24h;
      signed_change change24h ].


End Formatting.

End Spec.

(** * Auxiliary definitions for the proofs *)

Module FloatKey.

(** A number other than NaN as a point of the lexicographic order on
    triples of integers. *)
Definition key (x : spec_float) : Z * Z * Z :=
  match x with
  | S754_infinity true => (-2, 0, 0)
  | S754_finite true m e => (-1, - e, - Z.pos m)
  | S754_zero _ => (0, 0, 0)
  | S754_nan => (0, 0, 0)
  | S754_finite false m e => (1, e, Z.pos m)
  | S754_infinity false => (2, 0, 0)
  end%Z.

Definition lex_lt (a b : Z * Z * Z) : Prop :=
  let '(a1, a2, a3) := a in
  let '(b1, b2, b3) := b in
  (a1 < b1 \/ (a1 = b1 /\ (a2 < b2 \/ (a2 = b2 /\ a3 < b3))))%Z.

Definition not_nan (x : float) : Prop := PrimFloat.is_nan x = false.

End FloatKey.

(** ** Scenario inputs *)

(** [{volume.h24:15000, marketCap:50000, priceChange.h24:25,
    txns.h24:{buys:30,sells:30}}]. *)
Definition scenarioPair : Pair.t :=
  {| Pair.volume := Some {| Pair.v_h24 := Some 15000%float |};
     Pair.marketCap := Some 50000%float;
     Pair.fdv := None;
     Pair.priceChange := Some {| Pair.pc_h24 := Some 25%float |};
     Pair.txns :=
       Some {| Pair.t_h24 :=
                 Some {| Pair.buys := Some 30%float;
                         Pair.sells := Some 30%float |} |};
     Pair.liquidity := None;
     Pair.priceUsd := None;
     Pair.baseToken := None;
     Pair.dexId := None;
     Pair.chainId := None;
     Pair.url := None |}.

(** A pair that reports only a volume. *)
Definition volumePair (v : float) : Pair.t :=
  {| Pair.volume := Some {| Pair.v_h24 := Some v |};
     Pair.marketCap := None;
     Pair.fdv := None;
     Pair.priceChange := None;
     Pair.txns := None;
     Pair.liquidity := None;
     Pair.priceUsd := None;
     Pair.baseToken := None;
     Pair.dexId := Some "dex";
     Pair.chainId := None;
     Pair.url := None |}.

(** A pair that reports only a market capitalization and a fully
    diluted valuation. *)
Definition capPair (marketCap fdv : option float) : Pair.t :=
  {| Pair.volume := None;
     Pair.marketCap := marketCap;
     Pair.fdv := fdv;
     Pair.priceChange := None;
     Pair.txns := None;
     Pair.liquidity := None;
     Pair.priceUsd := None;
     Pair.baseToken := None;
     Pair.dexId := None;
     Pair.chainId := None;
     Pair.url := None |}.

(** A pair that reports only a price change. *)
Definition changePair (change : float) : Pair.t :=
  {| Pair.volume := None;
     Pair.marketCap := None;
     Pair.fdv := None;
     Pair.priceChange := Some {| Pair.pc_h24 := Some change |};
     Pair.txns := None;
     Pair.liquidity := None;
     Pair.priceUsd := None;
     Pair.baseToken := None;
     Pair.dexId := None;
     Pair.chainId := None;
     Pair.url := None |}.

(** The 24h volume of a pair, absent volume counted as 0. *)
Definition volume24 (p : Pair.t) : float := Js.or0 (Pair.volume_h24 p).

(** A sample platform for the concrete runs. *)
Definition sampleClock (now : nat) : string := "2026-02-02T15:30:00.000Z".

Definition sampleParseFloat (s : option string) : float :=
  match s with
  | Some _ => 0.0000431%float
  | None => PrimFloat.nan
  end.

Definition sampleNumberToString (x : float) : string := "1e+21".

(** [{marketCap: 0, fdv: 5000}]. *)
Definition zeroCapPair : Pair.t := capPair (Some 0%float) (Some 5000%float).


(** ** Runs of the pipeline *)

Section Runs.

Variable upstream : nat -> string -> Exchange.
Variable clock : nat -> string.
Variable parseFloat : option string -> float.

(** The promise of [getPulse(address)] when its GET is answered by
    [res]. *)
Definition pulseOf (address : string) (res : Exchange) : Promise Result.t :=
  P.and_then (pairsOf res)
    (fun now pairs => Returned (assemble clock parseFloat address now pairs)).

(** The promise of [getPulse(address)] when its GET is the [k]-th of the
    request. *)
Definition pulseAt (k : nat) (address : string) : Promise Result.t :=
  pulseOf address (upstream k (tokenUrl address)).

(** The promises of [addresses.map(getPulse)], the first GET being the
    [k]-th of the request. *)
Fixpoint pulsesFrom (k : nat) (addresses : list string)
  : list (Promise Result.t) :=
  match addresses with
  | [] => []
  | a :: rest => pulseAt k a :: pulsesFrom (S k) rest
  end.

(** The normal result of the pipeline for [address], or the error result
    made from its failure. *)
Definition settledAt (k : nat) (address : string) : Result.t :=
  match state (pulseAt k address) with
  | Returned r => r
  | Thrown m => errorResult address m
  end.

Fixpoint caughtFrom (k : nat) (addresses : list string)
  : list (Promise Result.t) :=
  match addresses with
  | [] => []
  | a :: rest =>
      P.catch (pulseAt k a) (fun message => errorResult a message)
      :: caughtFrom (S k) rest
  end.

End Runs.

(** The results a response body carries. *)
Definition resultsIn (b : Body) : list Result.t :=
  match b with
  | Summary _ _ results => results
  | Batch _ results => results
  | Single (Some r) => [r]
  | _ => []
  end.

(** The invariant of the data model on one result. *)
Definition pulse_invariant (r : Result.t) : Prop :=
  (Result.found r = false ->
   (Result.pulse r = "dead" \/ Result.pulse r = "error") /\
   Result.token r = None /\ Result.stats r = None /\ Result.pair r = None)
  /\
  (Result.found r = true ->
   In (Result.pulse r) ["strong"; "stable"; "weak"; "critical"; "dead"]).

(** An upstream that knows one pair for every address but ["0xB"], for
    which it answers 404. *)
Definition samplePair : Pair.t :=
  {| Pair.volume := Some {| Pair.v_h24 := Some 1654.9%float |};
     Pair.marketCap := Some 42809%float;
     Pair.fdv := None;
     Pair.priceChange := Some {| Pair.pc_h24 := Some (-42.88)%float |};
     Pair.txns :=
       Some {| Pair.t_h24 :=
                 Some {| Pair.buys := Some 4%float;
                         Pair.sells := Some 2%float |} |};
     Pair.liquidity := Some {| Pair.usd := Some 39095.09%float |};
     Pair.priceUsd := Some "0.0000431";
     Pair.baseToken :=
       Some {| Pair.name := Js.Text "Foo"; Pair.symbol := Js.Text "FOO" |};
     Pair.dexId := Some "uniswap";
     Pair.chainId := Some "base";
     Pair.url := Some "https://dexscreener.com/base/0xa" |}.

Definition sampleUpstream (k : nat) (url : string) : Exchange :=
  if url =? tokenUrl "0xB" then
    {| latency := 1; result := HttpResponse 404 (JsonObject None) |}
  else
    {| latency := 2;
       result := HttpResponse 200 (JsonObject (Some [samplePair])) |}.

Definition getRequest (token tokens format : option string) : Request :=
  {| method := "GET"; q_token := token; q_tokens := tokens;
     q_format := format |}.


(** ** Requests that differ in one parameter *)

Definition withTokens (req : Request) (tokens : option string) : Request :=
  {| method := method req; q_token := q_token req; q_tokens := tokens;
     q_format := q_format req |}.

Definition withFormat (req : Request) (format : option string) : Request :=
  {| method := method req; q_token := q_token req; q_tokens := q_tokens req;
     q_format := format |}.

(** ** Parsed addresses *)

(** [c] occurs in [s]. *)
Fixpoint occurs (c : ascii) (s : string) : bool :=
  match s with
  | EmptyString => false
  | String x r => Ascii.eqb x c || occurs c r
  end.

(** [s] is made of ASCII characters only. *)
Fixpoint ascii_only (s : string) : bool :=
  match s with
  | EmptyString => true
  | String x r => (nat_of_ascii x <? 128)%nat && ascii_only r
  end.

(** An address as the parser of [tokens] leaves it: not empty, without
    comma, without ASCII white space at either end. *)
Definition clean_address (a : string) : Prop :=
  a <> EmptyString /\ occurs "," a = false /\ Js.trim a = a.

(** ** The fields a result carries *)

(** A found result carries token, stats, pair, a pair count of at least
    one and a timestamp, and neither message nor error; a result that is
    not found carries none of the former and either the message of the
    empty pair list, with pulse dead, or an error, with pulse error. *)
Definition well_shaped (r : Result.t) : Prop :=
  if Result.found r then
    Result.token r <> None /\ Result.stats r <> None /\
    Result.pair r <> None /\ Result.timestamp r <> None /\
    (exists n, Result.pairCount r = Some n /\ (1 <= n)%nat) /\
    Result.message r = None /\ Result.error r = None
  else
    Result.token r = None /\ Result.stats r = None /\
    Result.pair r = None /\ Result.timestamp r = None /\
    Result.pairCount r = None /\
    ((Result.pulse r = "dead" /\
      Result.message r = Some "No trading pairs found" /\
      Result.error r = None)
     \/
     (Result.pulse r = "error" /\ Result.message r = None /\
      Result.error r <> None)).


(** * Proofs *)

(** ** The order of JavaScript numbers that are not NaN *)

Module FloatOrder.

Import FloatKey.

Lemma cmp_cases (e1 e2 : Z) (m1 m2 : positive) :
  (match (e1 ?= e2)%Z with
   | Eq => Pos.compare_cont Eq m1 m2
   | Lt => Lt
   | Gt => Gt
   end = Lt)
  <-> (e1 < e2 \/ (e1 = e2 /\ Z.pos m1 < Z.pos m2))%Z.
Proof.
  change (Pos.compare_cont Eq m1 m2) with (Pos.compare m1 m2).
  destruct (Z.compare_spec e1 e2); destruct (Pos.compare_spec m1 m2);
    split; intros H'; try discriminate; try reflexivity; try lia.
Qed.

Lemma cmp_cases_opp (e1 e2 : Z) (m1 m2 : positive) :
  (match (e1 ?= e2)%Z with
   | Eq => CompOpp (Pos.compare_cont Eq m1 m2)
   | Lt => Gt
   | Gt => Lt
   end = Lt)
  <-> (e2 < e1 \/ (e1 = e2 /\ Z.pos m2 < Z.pos m1))%Z.
Proof.
  change (Pos.compare_cont Eq m1 m2) with (Pos.compare m1 m2).
  destruct (Z.compare_spec e1 e2); destruct (Pos.compare_spec m1 m2);
    simpl; split; intros H'; try discriminate; try reflexivity; try lia.
Qed.

Lemma SFltb_key (x y : spec_float) :
  x <> S754_nan -> y <> S754_nan ->
  (SFltb x y = true <-> lex_lt (key x) (key y)).
Proof.
  intros Hx Hy. unfold SFltb.
  destruct x as [sx|sx| |sx mx ex], y as [sy|sy| |sy my ey];
    try congruence;
    try destruct sx; try destruct sy; simpl;
    try (split; [ discriminate | lia ]);
    try (split; [ intros _; lia | reflexivity ]).
  - split; intros H.
    + assert (H' : match (ex ?= ey)%Z with
                   | Eq => CompOpp (Pos.compare_cont Eq mx my)
                   | Lt => Gt
                   | Gt => Lt
                   end = Lt)
        by (destruct (ex ?= ey)%Z; [ destruct (CompOpp _) | | ];
            congruence).
      apply cmp_cases_opp in H'. lia.
    + assert (H' : (ey < ex \/ (ex = ey /\ Z.pos my < Z.pos mx))%Z) by lia.
      apply cmp_cases_opp in H'. rewrite H'. reflexivity.
  - split; intros H.
    + assert (H' : match (ex ?= ey)%Z with
                   | Eq => Pos.compare_cont Eq mx my
                   | Lt => Lt
                   | Gt => Gt
                   end = Lt)
        by (destruct (ex ?= ey)%Z; [ destruct (Pos.compare_cont _ _ _) | | ];
            congruence).
      apply cmp_cases in H'. lia.
    + assert (H' : (ex < ey \/ (ex = ey /\ Z.pos mx < Z.pos my))%Z) by lia.
      apply cmp_cases in H'. rewrite H'. reflexivity.
Qed.

Lemma not_nan_SF (x : float) : not_nan x -> Prim2SF x <> S754_nan.
Proof.
  unfold not_nan, PrimFloat.is_nan. rewrite FloatAxioms.eqb_spec. intros H E.
  rewrite E in H. discriminate.
Qed.

Lemma ltb_key (x y : float) :
  not_nan x -> not_nan y ->
  (PrimFloat.ltb x y = true <-> lex_lt (key (Prim2SF x)) (key (Prim2SF y))).
Proof.
  intros Hx Hy. rewrite FloatAxioms.ltb_spec.
  apply SFltb_key; now apply not_nan_SF.
Qed.

Ltac order_by_key :=
  repeat match goal with
         | H : PrimFloat.ltb ?a ?b = true |- _ =>
             apply ltb_key in H; [ | assumption | assumption ]
         | H : PrimFloat.ltb ?a ?b = false |- _ =>
             apply not_true_iff_false in H;
             rewrite ltb_key in H by assumption
         | |- PrimFloat.ltb ?a ?b = true =>
             apply ltb_key; [ assumption | assumption | ]
         | |- PrimFloat.ltb ?a ?b = false =>
             apply not_true_iff_false; rewrite ltb_key by assumption
         end;
  unfold lex_lt in *;
  repeat match goal with
         | |- context [key (Prim2SF ?a)] =>
             let k1 := fresh "k" in
             let k2 := fresh "k" in
             let k3 := fresh "k" in
             destruct (key (Prim2SF a)) as [[k1 k2] k3]
         | H : context [key (Prim2SF ?a)] |- _ =>
             let k1 := fresh "k" in
             let k2 := fresh "k" in
             let k3 := fresh "k" in
             destruct (key (Prim2SF a)) as [[k1 k2] k3]
         end;
  lia.

Lemma gt_irrefl (a : float) : not_nan a -> Js.gt a a = false.
Proof. unfold Js.gt. intros Ha. order_by_key. Qed.

Lemma gt_trans (a b c : float) :
  not_nan a -> not_nan b -> not_nan c ->
  Js.gt a b = true -> Js.gt b c = true -> Js.gt a c = true.
Proof. unfold Js.gt. intros Ha Hb Hc H1 H2. order_by_key. Qed.

Lemma gt_asym (a b : float) :
  not_nan a -> not_nan b -> Js.gt a b = true -> Js.gt b a = false.
Proof. unfold Js.gt. intros Ha Hb H1. order_by_key. Qed.

(** From [b < r] and not [b < p]: [p < r]. *)
Lemma gt_above (r b p : float) :
  not_nan r -> not_nan b -> not_nan p ->
  Js.gt r b = true -> Js.gt p b = false -> Js.gt r p = true.
Proof. unfold Js.gt. intros Hr Hb Hp H1 H2. order_by_key. Qed.

Lemma or0_not_nan (x : option float) : not_nan (Js.or0 x).
Proof.
  unfold not_nan, Js.or0. destruct x as [v|]; [ | reflexivity ].
  unfold Js.truthy.
  destruct (PrimFloat.is_zero v); simpl; [ reflexivity | ].
  destruct (PrimFloat.is_nan v) eqn:E; simpl; [ reflexivity | exact E ].
Qed.

End FloatOrder.

(** ** Pulse scorer *)

Lemma score_spec (m : Metrics) :
  score m = Spec.score (vol24h m) (txns24h m) (volRatio m) (change24h m).
Proof.
  unfold score, Spec.score, Spec.volume_tier, Spec.transaction_tier,
    Spec.turnover_tier, Spec.momentum_bonus, Spec.momentum_penalty.
  repeat match goal with
         | |- context [if ?c then _ else _] => destruct c
         end;
    reflexivity.
Qed.

Lemma label_spec (s : Z) :
  (if (6 <=? s)%Z then "strong"
   else if (4 <=? s)%Z then "stable"
   else if (2 <=? s)%Z then "weak"
   else if (0 <=? s)%Z then "critical"
   else "dead") = Spec.label s.
Proof. unfold Spec.label. rewrite !Z.geb_leb. reflexivity. Qed.

Lemma score_bounds (m : Metrics) : (-2 <= score m <= 8)%Z.
Proof.
  unfold score.
  repeat match goal with
         | |- context [if ?c then _ else _] => destruct c
         end;
    lia.
Qed.

(** C2: for every pair that is not null, the label is the one the
    algorithm of the specification gives on the metrics of that pair:
    vol24h is the pair's 24h volume, txns24h the sum of its 24h buys and
    sells, change24h its 24h price change (each 0 by default), volRatio
    is vol24h / mcap when mcap > 0 and 0 otherwise; the score is the sum
    of the volume, transaction and turnover tiers and of the momentum
    bonus, minus the momentum penalty, and the label is read off the
    score top down (6, 4, 2, 0).  The scenario pair has volRatio 0.3,
    scores 8 and is strong. *)
Theorem calculatePulse_algorithm (p : Pair.t) :
  let vol24h := Js.or0 (Pair.volume_h24 p) in
  let mcap := Js.or0 (Js.or (Pair.marketCap p) (Pair.fdv p)) in
  let change24h := Js.or0 (Pair.priceChange_h24 p) in
  let txns24h :=
    (Js.or0 (Pair.txns_h24_buys p) + Js.or0 (Pair.txns_h24_sells p))%float in
  let volRatio :=
    if Js.gt mcap 0 then (vol24h / mcap)%float else 0%float in
  let s := Spec.score vol24h txns24h volRatio change24h in
  score (metrics p) = s /\
  calculatePulse (Some p) = Spec.label s /\
  Spec.score 15000 (30 + 30) (15000 / 50000) 25 = 8%Z /\
  (15000 / 50000)%float = 0.3%float /\
  score (metrics scenarioPair) = 8%Z /\
  calculatePulse (Some scenarioPair) = "strong".
Proof.
  intros vol24h mcap change24h txns24h volRatio s.
  assert (E : score (metrics p) = s) by apply score_spec.
  split; [ exact E | ].
  split; [ | repeat split ].
  unfold calculatePulse. rewrite label_spec, E. reflexivity.
Qed.

(** ** Pair selector *)

Section Selection.

Let step (best pair : Pair.t) : Pair.t :=
  if Js.gt (Js.or0 (Pair.volume_h24 pair)) (Js.or0 (Pair.volume_h24 best))
  then pair else best.

Lemma volume24_not_nan (p : Pair.t) : FloatKey.not_nan (volume24 p).
Proof. apply FloatOrder.or0_not_nan. Qed.

Hint Resolve volume24_not_nan : core.

(** The reduce from [best] over [l]: either [best] survives and nothing
    in [l] has more volume, or the result is the first pair of [l] that
    beats [best] and everything before it, and nothing in [l] has more
    volume than it. *)
Lemma reduce_invariant (l : list Pair.t) :
  forall best : Pair.t,
    let r := fold_left step l best in
    (r = best /\
     forall p, In p l -> Js.gt (volume24 p) (volume24 best) = false)
    \/
    (exists i,
        nth_error l i = Some r /\
        Js.gt (volume24 r) (volume24 best) = true /\
        (forall j p, (j < i)%nat -> nth_error l j = Some p ->
                     Js.gt (volume24 r) (volume24 p) = true) /\
        (forall p, In p l -> Js.gt (volume24 p) (volume24 r) = false)).
Proof.
  induction l as [|q l IH]; intros best; simpl.
  - left. split; [ reflexivity | intros p [] ].
  - assert (Es : step best q =
                 if Js.gt (volume24 q) (volume24 best) then q else best)
      by reflexivity.
    rewrite Es. clear Es.
    destruct (Js.gt (volume24 q) (volume24 best)) eqn:Hq.
    + destruct (IH q) as [[Er Hmax] | (i & Hi & Hgt & Hbefore & Hmax)].
      * right. exists 0%nat. rewrite Er. simpl.
        split; [ reflexivity | ]. split; [ exact Hq | ].
        split; [ intros j p Hj; lia | ].
        intros p [<- | Hp]; [ apply FloatOrder.gt_irrefl; auto | auto ].
      * right. exists (S i). simpl.
        split; [ exact Hi | ].
        split; [ apply FloatOrder.gt_trans with (volume24 q); auto | ].
        split.
        -- intros [|j] p Hj Hp; simpl in Hp.
           ++ injection Hp as <-. exact Hgt.
           ++ apply (Hbefore j); [ lia | exact Hp ].
        -- intros p [<- | Hp]; [ | auto ].
           apply FloatOrder.gt_asym; auto.
    + destruct (IH best) as [[Er Hmax] | (i & Hi & Hgt & Hbefore & Hmax)].
      * left. split; [ exact Er | ].
        intros p [<- | Hp]; [ exact Hq | auto ].
      * right. exists (S i). simpl.
        split; [ exact Hi | ]. split; [ exact Hgt | ].
        split.
        -- intros [|j] p Hj Hp; simpl in Hp.
           ++ injection Hp as <-.
              apply FloatOrder.gt_above with (volume24 best); auto.
           ++ apply (Hbefore j); [ lia | exact Hp ].
        -- intros p [<- | Hp]; [ | auto ].
           destruct (Js.gt (volume24 q) (volume24 (fold_left step l best)))
             eqn:E; [ | reflexivity ].
           assert (Js.gt (volume24 q) (volume24 best) = true)
             by (apply FloatOrder.gt_trans
                   with (volume24 (fold_left step l best)); auto).
           congruence.
Qed.

(** C3: in a non-empty sequence of pairs the main pair stands at an
    index [i] of the sequence, no pair of the sequence has a greater 24h
    volume (absent volume counted as 0), and every pair before index [i]
    has a strictly smaller one: the main pair is the earliest pair of
    maximal volume. *)
Theorem mainPair_earliest_maximum (first : Pair.t) (rest : list Pair.t) :
  let pairs := first :: rest in
  let mainPair := mainPairOf pairs first in
  exists i,
    nth_error pairs i = Some mainPair /\
    (forall p, In p pairs ->
               Js.gt (volume24 p) (volume24 mainPair) = false) /\
    (forall j p, (j < i)%nat -> nth_error pairs j = Some p ->
                 Js.gt (volume24 mainPair) (volume24 p) = true).
Proof.
  intros pairs mainPair.
  assert (E : mainPair = fold_left step rest first).
  { unfold mainPair, mainPairOf, pairs. simpl.
    destruct (Js.gt _ _); reflexivity. }
  rewrite E.
  destruct (reduce_invariant rest first)
    as [[Er Hmax] | (i & Hi & Hgt & Hbefore & Hmax)].
  - exists 0%nat. rewrite Er. simpl.
    split; [ reflexivity | ]. split.
    + intros p [<- | Hp]; [ apply FloatOrder.gt_irrefl; auto | auto ].
    + intros j p Hj; lia.
  - exists (S i). simpl.
    split; [ exact Hi | ]. split.
    + intros p [<- | Hp]; [ apply FloatOrder.gt_asym; auto | auto ].
    + intros [|j] p Hj Hp; simpl in Hp.
      * injection Hp as <-. exact Hgt.
      * apply (Hbefore j); [ lia | exact Hp ].
Qed.

End Selection.

(** ** Market capitalization and turnover *)

Lemma falsy_marketCap_cases (c : option float) :
  c = None \/ c = Some 0%float \/ c = Some (-0)%float ->
  Js.truthy_opt c = false.
Proof. intros [-> | [-> | ->]]; reflexivity. Qed.

Lemma stats_mcap_is_scoring_mcap clock parseFloat address now first rest :
  option_map Result.mcap
    (Result.stats (assemble clock parseFloat address now (first :: rest)))
  = Some (mcap (metrics (mainPairOf (first :: rest) first))).
Proof. reflexivity. Qed.

(** C6 as stated fails: with [marketCap] present and 0 and [fdv] 5000,
    the scorer's mcap and the mcap of the assembled stats are 5000. *)
Lemma mcap_of_zero_marketCap_is_fdv :
  Pair.marketCap zeroCapPair = Some 0%float /\
  Pair.fdv zeroCapPair = Some 5000%float /\
  mcap (metrics zeroCapPair) = 5000%float /\
  option_map Result.mcap
    (Result.stats (assemble sampleClock sampleParseFloat "0xA" 0 [zeroCapPair]))
  = Some 5000%float /\
  Js.gt (mcap (metrics zeroCapPair)) 0 = true.
Proof. repeat split. Qed.

Lemma mcap_cases (p : Pair.t) :
  (forall c, Pair.marketCap p = Some c -> Js.truthy c = true ->
             mcap (metrics p) = c) /\
  (Js.truthy_opt (Pair.marketCap p) = false ->
   forall d, Pair.fdv p = Some d -> Js.truthy d = true ->
             mcap (metrics p) = d) /\
  (Js.truthy_opt (Pair.marketCap p) = false ->
   Js.truthy_opt (Pair.fdv p) = false ->
   mcap (metrics p) = 0%float).
Proof.
  unfold metrics; simpl. unfold Js.or.
  split; [ | split ].
  - intros c Hc Ht. rewrite Hc. simpl. rewrite Ht. simpl. rewrite Ht.
    reflexivity.
  - intros Hm d Hd Ht. rewrite Hm, Hd. simpl. rewrite Ht. reflexivity.
  - intros Hm Hf. rewrite Hm. unfold Js.or0.
    destruct (Pair.fdv p) as [d|]; [ | reflexivity ].
    simpl in Hf. rewrite Hf. reflexivity.
Qed.

(** C6, amended: mcap is the market capitalization when that is present
    and truthy (a number other than 0 and NaN); when it is absent or
    zero, mcap is the fully diluted valuation if that is truthy, and 0
    otherwise.  The stats of an assembled result carry the scorer's mcap
    of the main pair. *)
Theorem mcap_falls_back_when_falsy (p : Pair.t) :
  (forall c, Pair.marketCap p = Some c -> Js.truthy c = true ->
             mcap (metrics p) = c) /\
  (Js.truthy_opt (Pair.marketCap p) = false ->
   forall d, Pair.fdv p = Some d -> Js.truthy d = true ->
             mcap (metrics p) = d) /\
  (Js.truthy_opt (Pair.marketCap p) = false ->
   Js.truthy_opt (Pair.fdv p) = false ->
   mcap (metrics p) = 0%float) /\
  (forall clock parseFloat address now rest,
      option_map Result.mcap
        (Result.stats (assemble clock parseFloat address now (p :: rest)))
      = Some (mcap (metrics (mainPairOf (p :: rest) p)))).
Proof.
  destruct (mcap_cases p) as (H1 & H2 & H3).
  repeat split; auto.
Qed.

Lemma mcap_falls_back_when_falsy_witness :
  mcap (metrics scenarioPair) = 50000%float /\
  mcap (metrics zeroCapPair) = 5000%float /\
  mcap (metrics (capPair None (Some 7%float))) = 7%float /\
  mcap (metrics (capPair (Some 0%float) None)) = 0%float.
Proof.
  split; [ | split; [ | split ] ].
  - apply (proj1 (mcap_falls_back_when_falsy scenarioPair) 50000%float);
      reflexivity.
  - apply (proj1 (proj2 (mcap_falls_back_when_falsy zeroCapPair)));
      reflexivity.
  - apply (proj1 (proj2 (mcap_falls_back_when_falsy
                           (capPair None (Some 7%float)))));
      reflexivity.
  - apply (proj1 (proj2 (proj2 (mcap_falls_back_when_falsy
                                  (capPair (Some 0%float) None)))));
      reflexivity.
Defined.

(** C8: with vol24h the pair's 24h volume and mcap its market
    capitalization or, failing that, its fully diluted valuation (each 0
    by default), the scorer's volRatio is vol24h / mcap when mcap > 0 and
    0 otherwise, in particular when mcap is 0 or absent.  The division is
    only reached under the guard mcap > 0: without it the turnover tier
    adds nothing, and the score is the one of volume, transactions and
    change alone. *)
Theorem volRatio_guarded (p : Pair.t) :
  let vol := Js.or0 (Pair.volume_h24 p) in
  let cap := Js.or0 (Js.or (Pair.marketCap p) (Pair.fdv p)) in
  let txns :=
    (Js.or0 (Pair.txns_h24_buys p) + Js.or0 (Pair.txns_h24_sells p))%float in
  let change := Js.or0 (Pair.priceChange_h24 p) in
  let m := metrics p in
  vol24h m = vol /\ mcap m = cap /\
  (Js.gt cap 0 = true -> volRatio m = (vol / cap)%float) /\
  (Js.gt cap 0 = false ->
   volRatio m = 0%float /\
   score m
   = (Spec.volume_tier vol + Spec.transaction_tier txns
      + Spec.momentum_bonus change - Spec.momentum_penalty change)%Z) /\
  (cap = 0%float -> volRatio m = 0%float) /\
  (Js.truthy_opt (Pair.marketCap p) = false ->
   Js.truthy_opt (Pair.fdv p) = false ->
   cap = 0%float /\ volRatio m = 0%float).
Proof.
  intros vol cap txns change m.
  assert (Hpos : Js.gt cap 0 = true -> volRatio m = (vol / cap)%float).
  { unfold m, metrics; cbn [volRatio]. fold vol cap. intros H.
    rewrite H. reflexivity. }
  assert (Hnon : Js.gt cap 0 = false -> volRatio m = 0%float).
  { unfold m, metrics; cbn [volRatio]. fold vol cap. intros H.
    rewrite H. reflexivity. }
  assert (Hzero : cap = 0%float -> volRatio m = 0%float).
  { intros E. apply Hnon. rewrite E. reflexivity. }
  split; [ reflexivity | ]. split; [ reflexivity | ].
  split; [ exact Hpos | ]. split; [ | split; [ exact Hzero | ] ].
  - intros H. split; [ exact (Hnon H) | ].
    rewrite score_spec, (Hnon H).
    change (vol24h m) with vol. change (txns24h m) with txns.
    change (change24h m) with change.
    unfold Spec.score. change (Spec.turnover_tier 0) with 0%Z. lia.
  - intros H1 H2.
    assert (E : cap = 0%float)
      by (apply (proj2 (proj2 (mcap_cases p))); assumption).
    split; [ exact E | exact (Hzero E) ].
Qed.

(** ** Promises and runs *)

Lemma first_rejection_none {A} (ps : list (Promise A)) :
  P.first_rejection ps = None <->
  Forall (fun p => exists a, state p = Returned a) ps.
Proof.
  induction ps as [|p ps IH]; simpl.
  - split; [ constructor | reflexivity ].
  - destruct (state p) as [a|m] eqn:E.
    + rewrite IH. split.
      * intros H. constructor; [ exists a; exact E | exact H ].
      * intros H. inversion H; assumption.
    + split.
      * destruct (P.first_rejection ps) as [[t m']|];
          [ destruct (_ <=? _)%nat | ]; discriminate.
      * intros H. inversion H as [|? ? [a Ha] ?]. congruence.
Qed.

Lemma values_all_returned {A} (ps : list (Promise A)) :
  P.first_rejection ps = None -> map state ps = map Returned (P.values ps).
Proof.
  rewrite first_rejection_none.
  induction 1 as [|p ps [a Ha] _ IH]; simpl; [ reflexivity | ].
  rewrite Ha. simpl. rewrite IH. reflexivity.
Qed.

Lemma values_of_returned {A} (ps : list (Promise A)) :
  forall rs, map state ps = map Returned rs ->
             P.first_rejection ps = None /\ P.values ps = rs.
Proof.
  induction ps as [|p ps IH]; intros [|r rs] H; simpl in *;
    try discriminate; [ split; reflexivity | ].
  injection H as Hp Hps. rewrite Hp.
  destruct (IH rs Hps) as [-> ->]. split; reflexivity.
Qed.

Lemma map_Returned_inj {A} (l1 : list A) :
  forall l2, map Returned l1 = map Returned l2 -> l1 = l2.
Proof.
  induction l1 as [|x l1 IH]; intros [|y l2] H; simpl in H;
    try discriminate; [ reflexivity | ].
  injection H as -> H. rewrite (IH l2 H). reflexivity.
Qed.

(** [Promise.all] is fulfilled exactly when every promise is, with the
    values in order. *)
Lemma all_returned {A} (ps : list (Promise A)) (rs : list A) :
  state (P.all ps) = Returned rs <-> map state ps = map Returned rs.
Proof.
  unfold P.all. split.
  - destruct (P.first_rejection ps) as [[t m]|] eqn:E; simpl;
      [ discriminate | ].
    intros H. injection H as <-. apply values_all_returned, E.
  - intros H. destruct (values_of_returned ps rs H) as [-> ->].
    reflexivity.
Qed.

Lemma first_rejection_some {A} (ps : list (Promise A)) (t : nat) (m : string) :
  P.first_rejection ps = Some (t, m) ->
  exists p, In p ps /\ state p = Thrown m /\ settles_at p = t.
Proof.
  induction ps as [|p ps IH]; simpl; [ discriminate | ].
  destruct (state p) as [a|m0] eqn:E.
  - intros H. destruct (IH H) as (q & Hq & Hs). exists q. auto.
  - destruct (P.first_rejection ps) as [[t' m']|].
    + destruct (settles_at p <=? t')%nat; intros H; injection H as <- <-.
      * exists p. auto.
      * destruct IH as (q & Hq & Hs); [ reflexivity | ]. exists q. auto.
    + intros H; injection H as <- <-. exists p. auto.
Qed.

(** [Promise.all] is rejected exactly when some promise is, with the
    error of one of them. *)
Lemma all_thrown {A} (ps : list (Promise A)) :
  (forall m, state (P.all ps) = Thrown m ->
             exists p, In p ps /\ state p = Thrown m) /\
  (forall p m, In p ps -> state p = Thrown m ->
               exists m', state (P.all ps) = Thrown m').
Proof.
  unfold P.all. split.
  - intros m. destruct (P.first_rejection ps) as [[t m']|] eqn:E; simpl;
      [ | discriminate ].
    intros H; injection H as <-.
    destruct (first_rejection_some ps t m' E) as (p & Hp & Hs & _).
    exists p. auto.
  - intros p m Hp Hs.
    destruct (P.first_rejection ps) as [[t m']|] eqn:E; simpl;
      [ exists m'; reflexivity | ].
    apply first_rejection_none in E. rewrite Forall_forall in E.
    destruct (E p Hp) as [a Ha]. congruence.
Qed.

Section PipelineProofs.

Variable upstream : nat -> string -> Exchange.
Variable clock : nat -> string.
Variable parseFloat : option string -> float.
Variable numberToString : float -> string.

Lemma getPulse_run (address : string) (log : list string) :
  getPulse upstream clock parseFloat address log
  = (pulseAt upstream clock parseFloat (List.length log) address,
     (log ++ [tokenUrl address])%list).
Proof. reflexivity. Qed.

Lemma mapM_getPulse_run (addresses : list string) :
  forall log,
    mapM (getPulse upstream clock parseFloat) addresses log
    = (pulsesFrom upstream clock parseFloat (List.length log) addresses,
       (log ++ map tokenUrl addresses)%list).
Proof.
  induction addresses as [|a rest IH]; intros log; simpl.
  - unfold ret. rewrite app_nil_r. reflexivity.
  - unfold bind at 1. rewrite getPulse_run.
    unfold bind at 1. rewrite IH. unfold ret.
    rewrite length_app, Nat.add_1_r, <- app_assoc. reflexivity.
Qed.

Lemma getBatchPulse_run (addresses : list string) :
  forall log,
    getBatchPulse upstream clock parseFloat addresses log
    = (P.all (caughtFrom upstream clock parseFloat (List.length log) addresses),
       (log ++ map tokenUrl addresses)%list).
Proof.
  unfold getBatchPulse. intros log. unfold bind at 1.
  match goal with
  | |- (let (a, log') := ?run in _) = _ =>
      assert (E : run = (caughtFrom upstream clock parseFloat
                           (List.length log) addresses,
                         (log ++ map tokenUrl addresses)%list))
  end.
  { revert log.
    induction addresses as [|a rest IH]; intros log; simpl.
    - unfold ret. rewrite app_nil_r. reflexivity.
    - unfold bind at 1. unfold bind at 1. rewrite getPulse_run.
      unfold ret at 1. unfold bind at 1. rewrite IH. unfold ret.
      rewrite length_app, Nat.add_1_r, <- app_assoc. reflexivity. }
  rewrite E. reflexivity.
Qed.

Lemma caughtFrom_settled (addresses : list string) :
  forall k,
    map state (caughtFrom upstream clock parseFloat k addresses)
    = map Returned
        (map (fun '(i, a) => settledAt upstream clock parseFloat i a)
             (combine (seq k (List.length addresses)) addresses)).
Proof.
  induction addresses as [|a rest IH]; intros k; [ reflexivity | ].
  cbn [caughtFrom map List.length seq combine]. rewrite IH. f_equal.
  unfold settledAt, P.catch. cbn [state].
  destruct (state (pulseAt upstream clock parseFloat k a)); reflexivity.
Qed.

Lemma nth_error_indexed {B} (f : nat -> string -> B) (addresses : list string) :
  forall k i a,
    nth_error addresses i = Some a ->
    nth_error (map (fun '(i, a) => f i a)
                   (combine (seq k (List.length addresses)) addresses)) i
    = Some (f (k + i)%nat a).
Proof.
  induction addresses as [|a0 rest IH]; intros k [|i] a H; simpl in *;
    try discriminate.
  - injection H as <-. rewrite Nat.add_0_r. reflexivity.
  - rewrite (IH (S k) i a H). f_equal. f_equal. lia.
Qed.

(** The library's batch: fulfilled for every list of addresses, one
    result per address and in the order of the addresses, each the normal
    result of its own pipeline or the error result of its own failure. *)
Theorem getBatchPulse_isolates_failures (addresses log : list string) :
  exists results,
    state (fst (getBatchPulse upstream clock parseFloat addresses log))
    = Returned results /\
    List.length results = List.length addresses /\
    (forall i a,
        nth_error addresses i = Some a ->
        nth_error results i
        = Some (match state (pulseAt upstream clock parseFloat
                               (List.length log + i) a) with
                | Returned r => r
                | Thrown m => errorResult a m
                end)) /\
    snd (getBatchPulse upstream clock parseFloat addresses log)
    = (log ++ map tokenUrl addresses)%list.
Proof.
  rewrite getBatchPulse_run. simpl.
  eexists. split; [ apply all_returned, caughtFrom_settled | ].
  split; [ | split; [ | reflexivity ] ].
  - rewrite length_map, length_combine, length_seq. apply Nat.min_id.
  - intros i a H.
    apply (nth_error_indexed (settledAt upstream clock parseFloat)), H.
Qed.

(** ** The handler *)

Lemma pulsesFrom_length (addresses : list string) :
  forall k,
    List.length (pulsesFrom upstream clock parseFloat k addresses)
    = List.length addresses.
Proof.
  induction addresses as [|a rest IH]; intros k; [ reflexivity | ].
  cbn [pulsesFrom List.length]. rewrite IH. reflexivity.
Qed.

Lemma returned_length {A} (ps : list (Promise A)) (rs : list A) :
  map state ps = map Returned rs -> List.length rs = List.length ps.
Proof.
  intros H. apply (f_equal (@List.length _)) in H.
  rewrite !length_map in H. symmetry. exact H.
Qed.

Lemma handler_run (req : Request) (addresses log : list string) :
  (method req =? "OPTIONS") = false ->
  parseAddresses req = Some addresses ->
  (10 <? List.length addresses)%nat = false ->
  handler upstream clock parseFloat numberToString req log
  = (respondTo numberToString (formatOf req) addresses
       (state (P.all (pulsesFrom upstream clock parseFloat
                        (List.length log) addresses))),
     (log ++ map tokenUrl addresses)%list).
Proof.
  intros Hm Hp Hn. unfold handler. rewrite Hm, Hp, Hn.
  unfold bind. rewrite mapM_getPulse_run. reflexivity.
Qed.

(** A 200 answer to a request with addresses: every pipeline was
    fulfilled, and the answer renders their results. *)
Lemma handler_ok (req : Request) (addresses log : list string) :
  (method req =? "OPTIONS") = false ->
  parseAddresses req = Some addresses ->
  status (fst (handler upstream clock parseFloat numberToString req log))
  = 200%nat ->
  exists results,
    map state (pulsesFrom upstream clock parseFloat (List.length log) addresses)
    = map Returned results /\
    List.length results = List.length addresses /\
    fst (handler upstream clock parseFloat numberToString req log)
    = respondTo numberToString (formatOf req) addresses (Returned results).
Proof.
  intros Hm Hp Hs.
  destruct (10 <? List.length addresses)%nat eqn:Hn.
  - unfold handler in Hs. rewrite Hm, Hp, Hn in Hs. discriminate.
  - rewrite (handler_run req addresses log Hm Hp Hn) in *.
    cbn [fst] in *.
    destruct (state (P.all _)) as [results|m] eqn:Hall;
      [ | discriminate ].
    apply all_returned in Hall. exists results.
    split; [ exact Hall | ].
    split; [ | reflexivity ].
    rewrite (returned_length _ _ Hall). apply pulsesFrom_length.
Qed.

(** C4, amended: in a 200 answer to a request with addresses, the body
    is [{count, summaries, results}] whenever the format is summary, for
    one address as for several; under any other format it is the single
    result itself for exactly one address and [{count, results}]
    otherwise. *)
Theorem handler_success_body (req : Request) (addresses : list string) :
  (method req =? "OPTIONS") = false ->
  parseAddresses req = Some addresses ->
  let response :=
    fst (handler upstream clock parseFloat numberToString req []) in
  status response = 200%nat ->
  exists results,
    map state (pulsesFrom upstream clock parseFloat 0 addresses)
    = map Returned results /\
    (formatOf req = "summary" ->
     exists summaries,
       map_outcome (formatPulseSummary numberToString) results
       = Returned summaries /\
       body response = Summary (List.length addresses) summaries results) /\
    (formatOf req <> "summary" -> List.length addresses = 1%nat ->
     exists r, results = [r] /\ body response = Single (Some r)) /\
    (formatOf req <> "summary" -> List.length addresses <> 1%nat ->
     body response = Batch (List.length addresses) results).
Proof.
  intros Hm Hp response Hs.
  destruct (handler_ok req addresses [] Hm Hp Hs)
    as (results & Hall & Hlen & Hresp).
  exists results. split; [ exact Hall | ].
  unfold response in *. rewrite Hresp in *. clear Hresp.
  unfold respondTo in *. rewrite Hlen.
  split; [ | split ].
  - intros Hf. rewrite Hf in *. cbn [String.eqb Ascii.eqb Bool.eqb] in *.
    destruct (map_outcome (formatPulseSummary numberToString) results)
      as [summaries|m]; [ | discriminate ].
    exists summaries. split; reflexivity.
  - intros Hf H1. apply String.eqb_neq in Hf. rewrite Hf.
    rewrite H1. cbn [Nat.eqb]. rewrite H1 in Hlen.
    destruct results as [|r [|r' results]]; try discriminate.
    exists r. split; reflexivity.
  - intros Hf H1. apply String.eqb_neq in Hf. rewrite Hf.
    apply Nat.eqb_neq in H1. rewrite H1. reflexivity.
Qed.

(** C5, amended: a request whose [token] and [tokens] parameters are
    both absent or empty is answered 400 with the error, usage and
    example payload, and no GET is issued; no GET is issued either when
    the list parsed from [tokens] is empty. *)
Theorem handler_without_addresses (req : Request) (log : list string) :
  (method req =? "OPTIONS") = false ->
  let run := handler upstream clock parseFloat numberToString req log in
  (Js.if_truthy (q_token req) = None ->
   Js.if_truthy (q_tokens req) = None ->
   status (fst run) = 400%nat /\
   (exists usage example,
       body (fst run) = UsageError "Missing token address" usage example) /\
   snd run = log) /\
  (parseAddresses req = Some [] -> snd run = log).
Proof.
  intros Hm run. unfold run, handler. rewrite Hm. split.
  - intros Ht Hts. unfold parseAddresses. rewrite Ht, Hts.
    cbn [ret fst snd respond status body].
    split; [ reflexivity | ]. split; [ | reflexivity ].
    eexists. eexists. reflexivity.
  - intros Hp. rewrite Hp. cbn [List.length Nat.ltb Nat.leb mapM].
    unfold bind, ret. cbn [snd]. reflexivity.
Qed.

(** ** The invariant of the results *)

Lemma calculatePulse_labels (p : option Pair.t) :
  In (calculatePulse p) ["strong"; "stable"; "weak"; "critical"; "dead"].
Proof.
  unfold calculatePulse. destruct p as [p|]; [ | simpl; auto 6 ].
  repeat match goal with
         | |- context [if ?c then _ else _] => destruct c
         end;
    simpl; auto 6.
Qed.

Lemma calculatePulse_dead (p : Pair.t) :
  calculatePulse (Some p) = "dead" <-> (score (metrics p) < 0)%Z.
Proof.
  unfold calculatePulse.
  destruct (6 <=? score (metrics p))%Z eqn:E6;
    [ apply Z.leb_le in E6; split; [ discriminate | lia ] | ].
  destruct (4 <=? score (metrics p))%Z eqn:E4;
    [ apply Z.leb_le in E4; split; [ discriminate | lia ] | ].
  destruct (2 <=? score (metrics p))%Z eqn:E2;
    [ apply Z.leb_le in E2; split; [ discriminate | lia ] | ].
  destruct (0 <=? score (metrics p))%Z eqn:E0;
    [ apply Z.leb_le in E0; split; [ discriminate | lia ] | ].
  apply Z.leb_gt in E0. split; [ intros _; exact E0 | reflexivity ].
Qed.

Lemma assemble_invariant (address : string) (now : nat) (pairs : list Pair.t) :
  pulse_invariant (assemble clock parseFloat address now pairs).
Proof.
  destruct pairs as [|first rest]; split; cbn; intros H;
    try discriminate.
  - repeat split. left. reflexivity.
  - apply (calculatePulse_labels (Some _)).
Qed.

Lemma errorResult_invariant (address message : string) :
  pulse_invariant (errorResult address message).
Proof.
  split; cbn; intros H; [ | discriminate ].
  repeat split. right. reflexivity.
Qed.

Lemma pulseAt_returned (k : nat) (address : string) (r : Result.t) :
  state (pulseAt upstream clock parseFloat k address) = Returned r ->
  exists pairs,
    state (pairsOf (upstream k (tokenUrl address))) = Returned pairs /\
    r = assemble clock parseFloat address
          (latency (upstream k (tokenUrl address))) pairs.
Proof.
  unfold pulseAt, pulseOf, P.and_then. cbn [state].
  destruct (state (pairsOf (upstream k (tokenUrl address)))) as [pairs|m];
    [ | discriminate ].
  intros H. injection H as <-. exists pairs. split; reflexivity.
Qed.

Lemma settledAt_invariant (k : nat) (address : string) :
  pulse_invariant (settledAt upstream clock parseFloat k address).
Proof.
  unfold settledAt.
  destruct (state (pulseAt upstream clock parseFloat k address))
    as [r|m] eqn:E.
  - apply pulseAt_returned in E. destruct E as (pairs & _ & ->).
    apply assemble_invariant.
  - apply errorResult_invariant.
Qed.

Lemma pulsesFrom_invariant (addresses : list string) :
  forall k results,
    map state (pulsesFrom upstream clock parseFloat k addresses)
    = map Returned results ->
    Forall pulse_invariant results.
Proof.
  induction addresses as [|a rest IH]; intros k [|r results] H;
    cbn [pulsesFrom map] in H; try discriminate; constructor.
  - injection H as Hr _. apply pulseAt_returned in Hr.
    destruct Hr as (pairs & _ & ->). apply assemble_invariant.
  - injection H as _ Hrest. apply (IH (S k)), Hrest.
Qed.

Lemma handler_results_invariant (req : Request) (log : list string) :
  Forall pulse_invariant
    (resultsIn
       (body (fst (handler upstream clock parseFloat numberToString req log)))).
Proof.
  unfold handler.
  destruct (method req =? "OPTIONS"); [ constructor | ].
  destruct (parseAddresses req) as [addresses|]; [ | constructor ].
  destruct (10 <? List.length addresses)%nat; [ constructor | ].
  unfold bind. rewrite mapM_getPulse_run. cbn [ret fst].
  destruct (state (P.all _)) as [results|m] eqn:Hall; [ | constructor ].
  apply all_returned, pulsesFrom_invariant in Hall.
  unfold respondTo.
  destruct (formatOf req =? "summary").
  - destruct (map_outcome _ results); [ exact Hall | constructor ].
  - destruct (List.length addresses =? 1)%nat; [ | exact Hall ].
    destruct Hall as [|r results Hr _]; cbn; constructor;
      [ exact Hr | constructor ].
Qed.

(** C9: every result the system produces satisfies the invariant of the
    data model.  A result [getPulse] returns has found false only for an
    empty pair list, with pulse dead and no token, stats or pair, and has
    found true with a pulse among strong, stable, weak, critical and dead
    otherwise, dead exactly when the score of the main pair is negative.
    The results of [getBatchPulse] are such results or error results
    (found false, pulse error, no token, stats or pair), and so are the
    results in a 200 answer of the handler.  A pair whose only metric is
    a 24h change of -60 is found and dead. *)
Theorem results_satisfy_invariant (address : string)
  (addresses log : list string) (req : Request) :
  (forall r,
      state (fst (getPulse upstream clock parseFloat address log)) = Returned r ->
      pulse_invariant r /\
      exists pairs,
        state (pairsOf (upstream (List.length log) (tokenUrl address)))
        = Returned pairs /\
        match pairs with
        | [] => Result.found r = false /\ Result.pulse r = "dead"
        | first :: _ =>
            Result.found r = true /\
            (Result.pulse r = "dead" <->
             (score (metrics (mainPairOf pairs first)) < 0)%Z)
        end) /\
  (forall results,
      state (fst (getBatchPulse upstream clock parseFloat addresses log))
      = Returned results ->
      Forall pulse_invariant results /\
      Forall (fun r => Result.pulse r = "error" ->
                       Result.found r = false /\ Result.error r <> None)
             results) /\
  Forall pulse_invariant
    (resultsIn
       (body (fst (handler upstream clock parseFloat numberToString req log))))
  /\
  (let r := assemble clock parseFloat address 0 [changePair (-60)] in
   (score (metrics (changePair (-60))) < 0)%Z /\
   Result.found r = true /\ Result.pulse r = "dead").
Proof.
  split; [ | split; [ | split ] ].
  - intros r. rewrite getPulse_run. cbn [fst]. intros H.
    apply pulseAt_returned in H. destruct H as (pairs & Hp & ->).
    split; [ apply assemble_invariant | ].
    exists pairs. split; [ exact Hp | ].
    destruct pairs as [|first rest]; [ split; reflexivity | ].
    split; [ reflexivity | ]. apply calculatePulse_dead.
  - intros results. rewrite getBatchPulse_run. cbn [fst]. intros H.
    apply all_returned in H. rewrite caughtFrom_settled in H.
    apply map_Returned_inj in H. subst results.
    split; apply Forall_forall; intros r Hr; apply in_map_iff in Hr;
      destruct Hr as ([i a] & <- & _).
    + apply settledAt_invariant.
    + unfold settledAt.
      destruct (state (pulseAt upstream clock parseFloat i a))
        as [r|m] eqn:Er.
      * apply pulseAt_returned in Er. destruct Er as (pairs & _ & ->).
        destruct pairs as [|first rest]; [ cbn; discriminate | ].
        change (Result.pulse (assemble clock parseFloat a
                                (latency (upstream i (tokenUrl a)))
                                (first :: rest)))
          with (calculatePulse (Some (mainPairOf (first :: rest) first))).
        intros Hl. pose proof (calculatePulse_labels
                                 (Some (mainPairOf (first :: rest) first))) as L.
        rewrite Hl in L. simpl in L.
        repeat destruct L as [L|L]; try discriminate; contradiction.
      * intros _. split; [ reflexivity | discriminate ].
  - apply handler_results_invariant.
  - vm_compute. repeat split.
Qed.

End PipelineProofs.

(** ** Response formatter *)

Lemma append_assoc (a b c : string) : (a ++ b) ++ c = a ++ (b ++ c).
Proof.
  induction a as [|x a IH]; simpl; [ reflexivity | ].
  rewrite IH. reflexivity.
Qed.

Lemma emoji_spec (pulse : string) :
  match lookup pulse emojiTable with
  | Some e => e
  | None => "❓"
  end = Spec.emoji pulse.
Proof.
  unfold Spec.emoji, emojiTable, lookup.
  rewrite !(String.eqb_sym pulse).
  repeat match goal with
         | |- context [if ?c then _ else _] => destruct c
         end;
    reflexivity.
Qed.

Lemma formatNum_spec numberToString (n : float) :
  formatNum numberToString n = Spec.formatted numberToString n.
Proof. reflexivity. Qed.

Lemma found_line_spec numberToString (result : Result.t)
  (token : Result.Token) (stats : Result.Stats) :
  Result.found result = true ->
  Result.token result = Some token ->
  Result.stats result = Some stats ->
  formatPulseSummary numberToString result
  = Returned
      (Spec.found_line numberToString (Result.pulse result)
         (Result.symbol token) (Result.price stats) (Result.mcap stats)
         (Result.volume24h stats) (Result.change24h stats)).
Proof.
  intros Hf Ht Hs. unfold formatPulseSummary. rewrite Hf, Ht, Hs.
  cbn [negb]. rewrite emoji_spec. f_equal.
  unfold Spec.found_line, Spec.signed_change.
  cbn [String.concat]. rewrite !append_assoc. rewrite !formatNum_spec.
  reflexivity.
Qed.



(** C10: when the main pair has no [baseToken], the result is found, its
    token has neither name nor symbol, and the summary line reads
    [$undefined] where the symbol belongs. *)
Theorem missing_baseToken_renders_undefined clock parseFloat numberToString
  (address : string) (now : nat) (first : Pair.t) (rest : list Pair.t) :
  Pair.baseToken (mainPairOf (first :: rest) first) = None ->
  let r := assemble clock parseFloat address now (first :: rest) in
  Result.found r = true /\
  Result.token r
  = Some {| Result.name := Js.Undefined; Result.symbol := Js.Undefined |} /\
  exists line,
    formatPulseSummary numberToString r
    = Returned (Spec.emoji (Result.pulse r) ++ " $undefined — " ++ line).
Proof.
  intros Hb r.
  assert (Ht : Result.token r
               = Some {| Result.name := Js.Undefined; Result.symbol := Js.Undefined |}).
  { unfold r, assemble. cbn [Result.token].
    unfold Pair.baseToken_name, Pair.baseToken_symbol. rewrite Hb.
    reflexivity. }
  split; [ reflexivity | ]. split; [ exact Ht | ].
  destruct (Result.stats r) as [stats|] eqn:Hs; [ | discriminate ].
  rewrite (found_line_spec numberToString r _ stats eq_refl Ht Hs).
  unfold Spec.found_line. cbn [String.concat Result.symbol Js.interp].
  rewrite !append_assoc. eexists. reflexivity.
Qed.

Lemma missing_baseToken_renders_undefined_witness :
  Pair.baseToken (mainPairOf [scenarioPair] scenarioPair) = None /\
  exists line,
    formatPulseSummary sampleNumberToString
      (assemble sampleClock sampleParseFloat "0xA" 0 [scenarioPair])
    = Returned ("💪 $undefined — " ++ line).
Proof.
  split; [ reflexivity | ].
  apply (missing_baseToken_renders_undefined sampleClock sampleParseFloat
           sampleNumberToString "0xA" 0 scenarioPair []).
  reflexivity.
Defined.

(** ** Runs on the sample upstream *)

Lemma nth_error_pulsesFrom upstream clock parseFloat (addresses : list string) :
  forall k i a,
    nth_error addresses i = Some a ->
    nth_error (pulsesFrom upstream clock parseFloat k addresses) i
    = Some (pulseAt upstream clock parseFloat (k + i) a).
Proof.
  induction addresses as [|a0 rest IH]; intros k [|i] a H;
    cbn [pulsesFrom nth_error] in *; try discriminate.
  - injection H as <-. rewrite Nat.add_0_r. reflexivity.
  - rewrite (IH (S k) i a H). do 2 f_equal. lia.
Qed.

(** In the handler the failure of one pipeline is the failure of the
    request: the answer is 500 and carries no result. *)
Lemma handler_rejects_whole_batch upstream clock parseFloat numberToString
  (req : Request) (addresses log : list string) (i : nat) (a m : string) :
  (method req =? "OPTIONS") = false ->
  parseAddresses req = Some addresses ->
  (10 <? List.length addresses)%nat = false ->
  nth_error addresses i = Some a ->
  state (pulseAt upstream clock parseFloat (List.length log + i) a) = Thrown m ->
  exists m',
    fst (handler upstream clock parseFloat numberToString req log)
    = respond 500 (InternalError "Internal error" m').
Proof.
  intros Hm Hp Hn Hi Hs.
  rewrite (handler_run upstream clock parseFloat numberToString
             req addresses log Hm Hp Hn).
  cbn [fst].
  destruct (proj2 (all_thrown
                     (pulsesFrom upstream clock parseFloat
                        (List.length log) addresses))
              (pulseAt upstream clock parseFloat (List.length log + i) a) m)
    as [m' Hm'].
  - apply nth_error_In with i. apply nth_error_pulsesFrom, Hi.
  - exact Hs.
  - exists m'. rewrite Hm'. reflexivity.
Qed.

(** C1 fails in the handler: for [tokens=0xA,0xB], with the upstream
    answering 404 for [0xB] only, the handler answers 500 with the
    message of that failure and no result for [0xA], where the library's
    [getBatchPulse] returns the normal result of [0xA] and the error
    result of [0xB]. *)
Theorem handler_aborts_batch_on_one_failure :
  let req := getRequest None (Some "0xA,0xB") None in
  let resultA := assemble sampleClock sampleParseFloat "0xA" 2 [samplePair] in
  parseAddresses req = Some ["0xA"; "0xB"] /\
  state (pulseAt sampleUpstream sampleClock sampleParseFloat 0 "0xA")
  = Returned resultA /\
  state (pulseAt sampleUpstream sampleClock sampleParseFloat 1 "0xB")
  = Thrown "Dexscreener API error: 404" /\
  fst (handler sampleUpstream sampleClock sampleParseFloat
         sampleNumberToString req [])
  = respond 500 (InternalError "Internal error" "Dexscreener API error: 404")
  /\
  state (fst (getBatchPulse sampleUpstream sampleClock sampleParseFloat
                ["0xA"; "0xB"] []))
  = Returned [resultA; errorResult "0xB" "Dexscreener API error: 404"].
Proof. vm_compute. repeat split. Qed.

(** C4 as stated fails: a successful request for the single address
    [0xA] with [format=summary] is answered with the wrapped body
    [{count: 1, summaries, results}], not with the result itself. *)
Lemma single_address_summary_is_wrapped :
  let req := getRequest (Some "0xA") None (Some "summary") in
  let response :=
    fst (handler sampleUpstream sampleClock sampleParseFloat
           sampleNumberToString req []) in
  let resultA := assemble sampleClock sampleParseFloat "0xA" 2 [samplePair] in
  parseAddresses req = Some ["0xA"] /\
  status response = 200%nat /\
  body response
  = Summary 1
      ["⚠️ $FOO — WEAK | $0.000043 | mcap $42.8K | vol $1.7K | -42.9%"]
      [resultA] /\
  body response <> Single (Some resultA).
Proof.
  vm_compute. repeat split. discriminate.
Qed.

Lemma handler_success_body_witness :
  exists r,
    body (fst (handler sampleUpstream sampleClock sampleParseFloat
                 sampleNumberToString (getRequest (Some "0xA") None None) []))
    = Single (Some r).
Proof.
  destruct (handler_success_body sampleUpstream sampleClock sampleParseFloat
              sampleNumberToString (getRequest (Some "0xA") None None)
              ["0xA"] eq_refl eq_refl eq_refl)
    as (results & _ & _ & Hsingle & _).
  destruct Hsingle as (r & _ & Hbody); [ discriminate | reflexivity | ].
  exists r. exact Hbody.
Defined.

(** C5 as stated fails: for [tokens=,] the parsed address list is
    empty, and the handler answers 200 with [{count: 0, results: []}]
    (no GET is issued). *)
Lemma empty_token_list_is_answered_200 :
  let req := getRequest None (Some ",") None in
  let run :=
    handler sampleUpstream sampleClock sampleParseFloat
      sampleNumberToString req [] in
  parseAddresses req = Some [] /\
  status (fst run) = 200%nat /\
  body (fst run) = Batch 0 [] /\
  snd run = [].
Proof. vm_compute. repeat split. Qed.

Lemma handler_without_addresses_witness :
  let run :=
    handler sampleUpstream sampleClock sampleParseFloat
      sampleNumberToString (getRequest None (Some EmptyString) None) [] in
  status (fst run) = 400%nat /\
  (exists usage example,
      body (fst run) = UsageError "Missing token address" usage example) /\
  snd run = [].
Proof.
  apply (proj1 (handler_without_addresses sampleUpstream sampleClock
                  sampleParseFloat sampleNumberToString
                  (getRequest None (Some EmptyString) None) [] eq_refl));
    reflexivity.
Defined.

Lemma volRatio_guarded_witness :
  volRatio (metrics scenarioPair) = (15000 / 50000)%float /\
  volRatio (metrics (volumePair 15000)) = 0%float.
Proof.
  split.
  - apply (proj1 (proj2 (proj2 (volRatio_guarded scenarioPair)))).
    reflexivity.
  - apply (proj1 (proj2 (proj2 (proj2 (volRatio_guarded (volumePair 15000)))))).
    reflexivity.
Defined.

(** ** Further properties of the handler and of the pipeline *)

(** More than 10 addresses: the answer is 400 with the error and message
    payload, and no GET is issued. *)
Theorem handler_too_many_addresses upstream clock parseFloat numberToString
  (req : Request) (addresses log : list string) :
  (method req =? "OPTIONS") = false ->
  parseAddresses req = Some addresses ->
  (10 < List.length addresses)%nat ->
  handler upstream clock parseFloat numberToString req log
  = (respond 400
       (LimitError "Too many tokens" "Maximum 10 tokens per request"),
     log).
Proof.
  intros Hm Hp Hn. apply Nat.ltb_lt in Hn.
  unfold handler. rewrite Hm, Hp, Hn. reflexivity.
Qed.

Lemma handler_too_many_addresses_witness :
  handler sampleUpstream sampleClock sampleParseFloat sampleNumberToString
    (getRequest None (Some "a,b,c,d,e,f,g,h,i,j,k") None) []
  = (respond 400
       (LimitError "Too many tokens" "Maximum 10 tokens per request"),
     []).
Proof.
  apply (handler_too_many_addresses sampleUpstream sampleClock
           sampleParseFloat sampleNumberToString
           (getRequest None (Some "a,b,c,d,e,f,g,h,i,j,k") None)
           ["a"; "b"; "c"; "d"; "e"; "f"; "g"; "h"; "i"; "j"; "k"]);
    [ reflexivity | reflexivity | simpl; lia ].
Defined.

Lemma handler_rejects_whole_batch_witness :
  exists m,
    fst (handler sampleUpstream sampleClock sampleParseFloat
           sampleNumberToString
           (getRequest None (Some "0xA, 0xB ,0xC") None) [])
    = respond 500 (InternalError "Internal error" m).
Proof.
  apply (handler_rejects_whole_batch sampleUpstream sampleClock
           sampleParseFloat sampleNumberToString
           (getRequest None (Some "0xA, 0xB ,0xC") None)
           ["0xA"; "0xB"; "0xC"] [] 1 "0xB" "Dexscreener API error: 404");
    reflexivity.
Defined.

(** An empty pair list gives the not-found result, with pulse dead and
    the message of the source. *)
Theorem getPulse_no_pairs upstream clock parseFloat
  (address : string) (log : list string) :
  state (pairsOf (upstream (List.length log) (tokenUrl address)))
  = Returned [] ->
  state (fst (getPulse upstream clock parseFloat address log))
  = Returned
      {| Result.address := address;
         Result.found := false;
         Result.pulse := "dead";
         Result.token := None;
         Result.stats := None;
         Result.pair := None;
         Result.pairCount := None;
         Result.timestamp := None;
         Result.message := Some "No trading pairs found";
         Result.error := None |}.
Proof.
  intros H. rewrite getPulse_run. cbn [fst].
  unfold pulseAt, pulseOf, P.and_then. cbn [state]. rewrite H.
  reflexivity.
Qed.

Lemma getPulse_no_pairs_witness :
  state (fst (getPulse (fun _ _ => {| latency := 3;
                                      result := HttpResponse 200 (JsonObject None) |})
                sampleClock sampleParseFloat "0xA" []))
  = Returned
      {| Result.address := "0xA";
         Result.found := false;
         Result.pulse := "dead";
         Result.token := None;
         Result.stats := None;
         Result.pair := None;
         Result.pairCount := None;
         Result.timestamp := None;
         Result.message := Some "No trading pairs found";
         Result.error := None |}.
Proof.
  apply (getPulse_no_pairs
           (fun _ _ => {| latency := 3;
                          result := HttpResponse 200 (JsonObject None) |})
           sampleClock sampleParseFloat "0xA" []).
  reflexivity.
Defined.

(** ** The handler: upstream calls, parameters and formats *)

Section HandlerProperties.

Variable upstream : nat -> string -> Exchange.
Variable clock : nat -> string.
Variable parseFloat : option string -> float.
Variable numberToString : float -> string.

Lemma formatPulseSummary_assemble (address : string) (now : nat)
  (pairs : list Pair.t) :
  exists line,
    formatPulseSummary numberToString
      (assemble clock parseFloat address now pairs)
    = Returned line.
Proof.
  destruct pairs as [|first rest]; eexists.
  - reflexivity.
  - unfold formatPulseSummary, assemble.
    cbn [Result.found Result.token Result.stats negb]. reflexivity.
Qed.

Lemma summaries_of_pulses (addresses : list string) :
  forall k results,
    map state (pulsesFrom upstream clock parseFloat k addresses)
    = map Returned results ->
    exists summaries,
      map_outcome (formatPulseSummary numberToString) results
      = Returned summaries.
Proof.
  induction addresses as [|a rest IH]; intros k [|r results] H;
    cbn [pulsesFrom map] in H; try discriminate.
  - exists []. reflexivity.
  - injection H as Hr Hrest.
    apply pulseAt_returned in Hr. destruct Hr as (pairs & _ & ->).
    destruct (IH (S k) results Hrest) as [summaries Hs].
    destruct (formatPulseSummary_assemble a
                (latency (upstream k (tokenUrl a))) pairs) as [line Hl].
    exists (line :: summaries). cbn [map_outcome]. rewrite Hl, Hs.
    reflexivity.
Qed.

Lemma caught_of_pulses (addresses : list string) :
  forall k results,
    map state (pulsesFrom upstream clock parseFloat k addresses)
    = map Returned results ->
    map state (caughtFrom upstream clock parseFloat k addresses)
    = map Returned results.
Proof.
  induction addresses as [|a rest IH]; intros k [|r results] H;
    cbn [pulsesFrom caughtFrom map] in *; try discriminate;
    [ reflexivity | ].
  injection H as Hr Hrest. rewrite (IH (S k) results Hrest).
  assert (Hr' : state (pulseAt upstream clock parseFloat k a) = Returned r)
    by exact Hr.
  unfold P.catch. cbn [state]. rewrite Hr'. reflexivity.
Qed.

(** The GETs of one request: none for [OPTIONS], for a request without
    address parameter and for more than 10 addresses; otherwise exactly
    one per parsed address, in the order of the addresses, each to the
    aggregator URL followed by the address.  Never more than 10. *)
Theorem handler_upstream_calls (req : Request) (log : list string) :
  let run := handler upstream clock parseFloat numberToString req log in
  exists addresses,
    snd run = (log ++ map tokenUrl addresses)%list /\
    (List.length addresses <= 10)%nat /\
    (addresses = [] \/ parseAddresses req = Some addresses) /\
    ((method req =? "OPTIONS") = true -> addresses = []) /\
    (status (fst run) = 400%nat -> addresses = []) /\
    ((method req =? "OPTIONS") = false ->
     forall parsed,
       parseAddresses req = Some parsed ->
       (List.length parsed <= 10)%nat ->
       addresses = parsed).
Proof.
  intros run. unfold run, handler.
  destruct (method req =? "OPTIONS") eqn:Hm.
  - exists []. cbn [ret snd map]. rewrite app_nil_r.
    repeat split; auto with arith. discriminate.
  - destruct (parseAddresses req) as [addresses|] eqn:Hp.
    + destruct (10 <? List.length addresses)%nat eqn:Hn.
      * exists []. cbn [ret snd map]. rewrite app_nil_r.
        repeat split; auto with arith.
        intros _ parsed E Hle. injection E as <-.
        apply Nat.ltb_lt in Hn. lia.
      * exists addresses. unfold bind. rewrite mapM_getPulse_run.
        cbn [ret snd fst]. apply Nat.ltb_ge in Hn.
        repeat split; auto; try discriminate.
        -- intros Hs. exfalso. revert Hs. unfold respondTo.
           destruct (state (P.all _)); [ | discriminate ].
           destruct (formatOf req =? "summary");
             [ destruct (map_outcome _ _); discriminate | ].
           destruct (_ =? 1)%nat; discriminate.
        -- intros _ parsed E _. injection E as <-. reflexivity.
    + exists []. cbn [ret snd map]. rewrite app_nil_r.
      repeat split; auto with arith. discriminate.
Qed.

(** When [token] is a non-empty string it is the only address, taken as
    it is, and [tokens] is not read at all. *)
Theorem handler_token_wins (req : Request) (t : string)
  (tokens : option string) (log : list string) :
  Js.if_truthy (q_token req) = Some t ->
  parseAddresses req = Some [t] /\
  handler upstream clock parseFloat numberToString (withTokens req tokens) log
  = handler upstream clock parseFloat numberToString req log /\
  ((method req =? "OPTIONS") = false ->
   snd (handler upstream clock parseFloat numberToString req log)
   = (log ++ [tokenUrl t])%list).
Proof.
  intros Ht.
  assert (Hp : parseAddresses req = Some [t])
    by (unfold parseAddresses; rewrite Ht; reflexivity).
  assert (Hp' : parseAddresses (withTokens req tokens) = Some [t])
    by (unfold parseAddresses; cbn [withTokens q_token]; rewrite Ht;
        reflexivity).
  split; [ exact Hp | ]. split.
  - unfold handler. rewrite Hp, Hp'. reflexivity.
  - intros Hm. unfold handler. rewrite Hm, Hp.
    cbn [List.length Nat.ltb Nat.leb]. unfold bind.
    rewrite mapM_getPulse_run. reflexivity.
Qed.

(** The format never changes the upstream calls, nor whether the
    request is refused with 400; two formats under which the answer is
    200 carry the same results; and two formats other than [summary]
    give the same response. *)
Theorem handler_format_keeps_calls_and_results (req : Request)
  (format : option string) (log : list string) :
  let run := handler upstream clock parseFloat numberToString req log in
  let run' :=
    handler upstream clock parseFloat numberToString
      (withFormat req format) log in
  snd run' = snd run /\
  (status (fst run') = 400%nat <-> status (fst run) = 400%nat) /\
  (status (fst run) = 200%nat -> status (fst run') = 200%nat ->
   resultsIn (body (fst run')) = resultsIn (body (fst run))) /\
  (formatOf req <> "summary" ->
   formatOf (withFormat req format) <> "summary" ->
   run' = run).
Proof.
  intros run run'. unfold run, run', handler.
  assert (Hp : parseAddresses (withFormat req format) = parseAddresses req)
    by reflexivity.
  rewrite Hp. cbn [withFormat method].
  destruct (method req =? "OPTIONS");
    [ repeat split; auto | ].
  destruct (parseAddresses req) as [addresses|];
    [ | repeat split; auto ].
  destruct (10 <? List.length addresses)%nat;
    [ repeat split; auto | ].
  unfold bind. rewrite mapM_getPulse_run. cbn [ret fst snd].
  split; [ reflexivity | ].
  destruct (state (P.all _)) as [results|m] eqn:Hall;
    [ | repeat split; auto ].
  apply all_returned in Hall.
  pose proof (returned_length _ _ Hall) as Hlen.
  rewrite pulsesFrom_length in Hlen.
  assert (Hone : forall f,
             status (respondTo numberToString f addresses
                       (Returned results)) <> 400%nat /\
             (status (respondTo numberToString f addresses
                        (Returned results)) = 200%nat ->
              resultsIn (body (respondTo numberToString f addresses
                                 (Returned results))) = results)).
  { intros f. unfold respondTo.
    destruct (f =? "summary").
    - destruct (map_outcome _ results);
        (split; [ discriminate | ]); [ reflexivity | discriminate ].
    - destruct (List.length addresses =? 1)%nat eqn:E;
        (split; [ discriminate | intros _ ]); [ | reflexivity ].
      apply Nat.eqb_eq in E. rewrite E in Hlen.
      destruct results as [|r [|r' results]]; try discriminate.
      reflexivity. }
  destruct (Hone (formatOf req)) as [S1 R1].
  destruct (Hone (formatOf (withFormat req format))) as [S2 R2].
  split; [ split; intros H; contradiction | ].
  split; [ intros H1 H2; rewrite (R1 H1), (R2 H2); reflexivity | ].
  intros H1 H2. apply String.eqb_neq in H1, H2.
  unfold respondTo. rewrite H1, H2. reflexivity.
Qed.

(** When the handler answers 200, the library's [getBatchPulse] returns,
    for the same addresses, the results the body carries, none of them an
    error result, and issues the same GETs. *)
Theorem handler_agrees_with_getBatchPulse (req : Request)
  (addresses log : list string) :
  (method req =? "OPTIONS") = false ->
  parseAddresses req = Some addresses ->
  let run := handler upstream clock parseFloat numberToString req log in
  let batch := getBatchPulse upstream clock parseFloat addresses log in
  status (fst run) = 200%nat ->
  state (fst batch) = Returned (resultsIn (body (fst run))) /\
  snd batch = snd run /\
  Forall (fun r => Result.pulse r <> "error") (resultsIn (body (fst run))).
Proof.
  intros Hm Hp run batch Hs.
  destruct (handler_ok upstream clock parseFloat numberToString
              req addresses log Hm Hp Hs)
    as (results & Hall & Hlen & Hresp).
  assert (Hn : (10 <? List.length addresses)%nat = false).
  { destruct (10 <? List.length addresses)%nat eqn:E; [ | reflexivity ].
    unfold run, handler in Hs. rewrite Hm, Hp, E in Hs. discriminate. }
  assert (Hres : resultsIn (body (fst run)) = results).
  { unfold run. rewrite Hresp. unfold respondTo.
    destruct (summaries_of_pulses addresses _ results Hall)
      as [summaries Hsum]. rewrite Hsum.
    destruct (formatOf req =? "summary"); [ reflexivity | ].
    destruct (List.length addresses =? 1)%nat eqn:E; [ | reflexivity ].
    apply Nat.eqb_eq in E. rewrite E in Hlen.
    destruct results as [|r [|r' results]]; try discriminate.
    reflexivity. }
  rewrite Hres. unfold batch, run.
  rewrite getBatchPulse_run,
    (handler_run upstream clock parseFloat numberToString
       req addresses log Hm Hp Hn).
  cbn [fst snd].
  split; [ apply all_returned, caught_of_pulses, Hall | ].
  split; [ reflexivity | ].
  clear - Hall. revert Hall. generalize (List.length log).
  revert results.
  induction addresses as [|a rest IH]; intros [|r results] k H;
    cbn [pulsesFrom map] in H; try discriminate; constructor.
  - injection H as Hr _. apply pulseAt_returned in Hr.
    destruct Hr as (pairs & _ & ->).
    destruct pairs as [|first rest']; [ cbn; discriminate | ].
    change (Result.pulse (assemble clock parseFloat a
                            (latency (upstream k (tokenUrl a)))
                            (first :: rest')))
      with (calculatePulse (Some (mainPairOf (first :: rest') first))).
    intros E.
    pose proof (calculatePulse_labels
                  (Some (mainPairOf (first :: rest') first))) as L.
    rewrite E in L. simpl in L.
    repeat destruct L as [L|L]; try discriminate; contradiction.
  - injection H as _ Hrest. apply (IH results (S k)), Hrest.
Qed.

End HandlerProperties.

Lemma handler_token_wins_witness :
  handler sampleUpstream sampleClock sampleParseFloat sampleNumberToString
    (withTokens (getRequest (Some "0xA,0xB") None None) (Some "0xC")) []
  = handler sampleUpstream sampleClock sampleParseFloat sampleNumberToString
      (getRequest (Some "0xA,0xB") None None) [] /\
  snd (handler sampleUpstream sampleClock sampleParseFloat
         sampleNumberToString (getRequest (Some "0xA,0xB") None None) [])
  = [tokenUrl "0xA,0xB"].
Proof.
  destruct (handler_token_wins sampleUpstream sampleClock sampleParseFloat
              sampleNumberToString (getRequest (Some "0xA,0xB") None None)
              "0xA,0xB" (Some "0xC") [] eq_refl)
    as (_ & Hsame & Hlog).
  split; [ exact Hsame | exact (Hlog eq_refl) ].
Defined.

Lemma handler_agrees_with_getBatchPulse_witness :
  state (fst (getBatchPulse sampleUpstream sampleClock sampleParseFloat
                ["0xA"; "0xC"] []))
  = Returned
      (resultsIn
         (body (fst (handler sampleUpstream sampleClock sampleParseFloat
                       sampleNumberToString
                       (getRequest None (Some "0xA,0xC") None) [])))).
Proof.
  apply (handler_agrees_with_getBatchPulse sampleUpstream sampleClock
           sampleParseFloat sampleNumberToString
           (getRequest None (Some "0xA,0xC") None) ["0xA"; "0xC"] []);
    reflexivity.
Defined.

(** ** The parser of the [tokens] parameter *)

Lemma split_not_nil (sep : ascii) (s : string) : Js.split sep s <> [].
Proof.
  destruct s as [|c r]; simpl; [ discriminate | ].
  destruct (Ascii.eqb c sep); [ discriminate | ].
  destruct (Js.split sep r); discriminate.
Qed.

Lemma split_pieces_without_sep (sep : ascii) (s : string) :
  Forall (fun piece => occurs sep piece = false) (Js.split sep s).
Proof.
  induction s as [|c r IH]; simpl.
  - constructor; [ reflexivity | constructor ].
  - destruct (Ascii.eqb c sep) eqn:E.
    + constructor; [ reflexivity | exact IH ].
    + destruct (Js.split sep r) as [|piece pieces].
      * constructor; [ simpl; rewrite E; reflexivity | constructor ].
      * inversion IH as [|? ? Hpiece Hpieces]; subst.
        constructor; [ simpl; rewrite E, Hpiece; reflexivity | exact Hpieces ].
Qed.

Lemma occurs_trimStart (c : ascii) (s : string) :
  occurs c s = false -> occurs c (Js.trimStart s) = false.
Proof.
  induction s as [|x r IH]; simpl; [ reflexivity | ].
  intros H. apply orb_false_iff in H. destruct H as [Hx Hr].
  destruct (Js.is_space x); [ apply IH, Hr | ].
  simpl. rewrite Hx, Hr. reflexivity.
Qed.

Lemma occurs_trimEnd (c : ascii) (s : string) :
  occurs c s = false -> occurs c (Js.trimEnd s) = false.
Proof.
  induction s as [|x r IH]; simpl; [ reflexivity | ].
  intros H. apply orb_false_iff in H. destruct H as [Hx Hr].
  specialize (IH Hr).
  destruct (Js.trimEnd r) as [|y t].
  - destruct (Js.is_space x); [ reflexivity | ].
    simpl. rewrite Hx. reflexivity.
  - simpl in *. rewrite Hx, IH. reflexivity.
Qed.

Lemma trimEnd_idempotent (s : string) :
  Js.trimEnd (Js.trimEnd s) = Js.trimEnd s.
Proof.
  induction s as [|x r IH]; simpl; [ reflexivity | ].
  destruct (Js.trimEnd r) as [|y t] eqn:E.
  - destruct (Js.is_space x) eqn:Hx; [ reflexivity | ].
    simpl. rewrite Hx. reflexivity.
  - change (Js.trimEnd (String x (String y t)))
      with (match Js.trimEnd (String y t) with
            | EmptyString =>
                if Js.is_space x then EmptyString else String x EmptyString
            | String y' t' => String x (String y' t')
            end).
    rewrite IH. reflexivity.
Qed.

Lemma trimStart_head (s : string) :
  Js.trimStart s = EmptyString \/
  exists x r, Js.trimStart s = String x r /\ Js.is_space x = false.
Proof.
  induction s as [|x r IH]; simpl; [ left; reflexivity | ].
  destruct (Js.is_space x) eqn:Hx; [ exact IH | ].
  right. exists x, r. split; [ reflexivity | exact Hx ].
Qed.

Lemma trim_idempotent (s : string) : Js.trim (Js.trim s) = Js.trim s.
Proof.
  unfold Js.trim.
  destruct (trimStart_head s) as [E | (x & r & E & Hx)]; rewrite E.
  - reflexivity.
  - assert (H : Js.trimStart (Js.trimEnd (String x r))
                = Js.trimEnd (String x r)).
    { change (Js.trimEnd (String x r))
        with (match Js.trimEnd r with
              | EmptyString =>
                  if Js.is_space x then EmptyString else String x EmptyString
              | String y' t' => String x (String y' t')
              end).
      destruct (Js.trimEnd r); rewrite ?Hx; cbn [Js.trimStart];
        rewrite Hx; reflexivity. }
    rewrite H. apply trimEnd_idempotent.
Qed.

(** Every address the parser of [tokens] produces is not empty, holds no
    comma and has no ASCII white space at either end. *)
Theorem splitTokens_clean (tokens : string) :
  Forall clean_address (splitTokens tokens).
Proof.
  unfold splitTokens. apply Forall_forall. intros a Ha.
  apply filter_In in Ha. destruct Ha as [Ha Hne].
  apply in_map_iff in Ha. destruct Ha as (piece & <- & Hpiece).
  pose proof (split_pieces_without_sep "," tokens) as Hsep.
  rewrite Forall_forall in Hsep. specialize (Hsep piece Hpiece).
  split; [ | split ].
  - apply negb_true_iff, String.eqb_neq in Hne. exact Hne.
  - unfold Js.trim. apply occurs_trimEnd, occurs_trimStart, Hsep.
  - apply trim_idempotent.
Qed.

Lemma split_single (sep : ascii) (a : string) :
  occurs sep a = false -> Js.split sep a = [a].
Proof.
  induction a as [|c r IH]; simpl; [ reflexivity | ].
  intros H. apply orb_false_iff in H. destruct H as [Hc Hr].
  rewrite Hc, (IH Hr). reflexivity.
Qed.

Lemma split_piece (sep : ascii) (a b : string) :
  occurs sep a = false ->
  Js.split sep (a ++ String sep b) = a :: Js.split sep b.
Proof.
  induction a as [|c r IH]; simpl.
  - intros _. rewrite Ascii.eqb_refl. reflexivity.
  - intros H. apply orb_false_iff in H. destruct H as [Hc Hr].
    rewrite Hc, (IH Hr). reflexivity.
Qed.

Lemma split_concat (addresses : list string) :
  Forall (fun a => occurs "," a = false) addresses ->
  addresses <> [] ->
  Js.split "," (String.concat "," addresses) = addresses.
Proof.
  induction 1 as [|a rest Ha Hrest IH]; intros Hne; [ contradiction | ].
  destruct rest as [|b rest].
  - simpl. apply split_single, Ha.
  - change (String.concat "," (a :: b :: rest))
      with (a ++ String "," (String.concat "," (b :: rest))).
    rewrite (split_piece "," a _ Ha), IH; [ reflexivity | discriminate ].
Qed.

(** The parser undoes the joining with commas: a list of addresses made
    of ASCII characters that are not empty, hold no comma and have no
    white space at either end is parsed back from its comma-separated
    form, in order and with its repetitions. *)
Theorem splitTokens_concat (addresses : list string) :
  Forall (fun a => ascii_only a = true) addresses ->
  Forall clean_address addresses ->
  splitTokens (String.concat "," addresses) = addresses.
Proof.
  intros _ H. unfold splitTokens.
  destruct addresses as [|a rest]; [ reflexivity | ].
  rewrite split_concat; [ | | discriminate ].
  - induction H as [|x l (Hne & _ & Ht) _ IH]; [ reflexivity | ].
    cbn [map filter]. rewrite Ht.
    apply String.eqb_neq in Hne. rewrite Hne. cbn [negb].
    rewrite IH. reflexivity.
  - apply Forall_impl with (2 := H). intros x (_ & Hx & _). exact Hx.
Qed.

Lemma splitTokens_concat_witness :
  splitTokens "0xA,0xB,0xA" = ["0xA"; "0xB"; "0xA"].
Proof.
  apply (splitTokens_concat ["0xA"; "0xB"; "0xA"]).
  - repeat constructor.
  - repeat constructor; discriminate.
Defined.

(** ** The scorer: monotonicity and the dead label *)

Lemma SFleb_key (x y : spec_float) :
  SFleb x y = true ->
  x <> S754_nan /\ y <> S754_nan /\
  (FloatKey.lex_lt (FloatKey.key x) (FloatKey.key y)
   \/ FloatKey.key x = FloatKey.key y).
Proof.
  unfold SFleb, SFcompare.
  destruct x as [sx|sx| |sx mx ex], y as [sy|sy| |sy my ey];
    try discriminate;
    try destruct sx; try destruct sy; simpl; intros H;
    try discriminate;
    (split; [ discriminate | split; [ discriminate | ] ]);
    try (right; reflexivity); try (left; lia).
  - change (Pos.compare_cont Eq mx my) with (Pos.compare mx my) in H.
    destruct (Z.compare_spec ex ey); destruct (Pos.compare_spec mx my);
      simpl in H; try discriminate; subst;
      try (right; reflexivity); left; lia.
  - change (Pos.compare_cont Eq mx my) with (Pos.compare mx my) in H.
    destruct (Z.compare_spec ex ey); destruct (Pos.compare_spec mx my);
      simpl in H; try discriminate; subst;
      try (right; reflexivity); left; lia.
Qed.

Lemma SF_not_nan (x : float) : Prim2SF x <> S754_nan -> FloatKey.not_nan x.
Proof.
  unfold FloatKey.not_nan, PrimFloat.is_nan.
  rewrite FloatAxioms.eqb_spec. unfold SFeqb, SFcompare.
  destruct (Prim2SF x) as [s|s| |s m e]; intros H;
    try destruct s; simpl; try reflexivity; try congruence;
    rewrite Z.compare_refl, Pos.compare_cont_refl; reflexivity.
Qed.

Lemma leb_key (a b : float) :
  PrimFloat.leb a b = true ->
  FloatKey.not_nan a /\ FloatKey.not_nan b /\
  (FloatKey.lex_lt (FloatKey.key (Prim2SF a)) (FloatKey.key (Prim2SF b))
   \/ FloatKey.key (Prim2SF a) = FloatKey.key (Prim2SF b)).
Proof.
  rewrite FloatAxioms.leb_spec. intros H.
  destruct (SFleb_key _ _ H) as (Ha & Hb & Hk).
  split; [ apply SF_not_nan, Ha | ]. split; [ apply SF_not_nan, Hb | ].
  exact Hk.
Qed.

Lemma ltb_not_nan (a b : float) :
  PrimFloat.ltb a b = true -> FloatKey.not_nan a /\ FloatKey.not_nan b.
Proof.
  rewrite FloatAxioms.ltb_spec. unfold SFltb, SFcompare. intros H.
  split; apply SF_not_nan; intros E; rewrite E in H;
    [ | destruct (Prim2SF a) ]; discriminate.
Qed.

(** From [c < a] and [a <= b]: [c < b]. *)
Lemma above_threshold (c a b : float) :
  Js.gt a c = true -> Js.ge b a = true -> Js.gt b c = true.
Proof.
  unfold Js.gt, Js.ge. intros H1 H2.
  destruct (ltb_not_nan _ _ H1) as [Hc Ha].
  destruct (leb_key _ _ H2) as (_ & Hb & Hk).
  apply FloatOrder.ltb_key in H1; [ | assumption | assumption ].
  apply FloatOrder.ltb_key; [ assumption | assumption | ].
  unfold FloatKey.lex_lt in *.
  destruct (FloatKey.key (Prim2SF a)) as [[a1 a2] a3].
  destruct (FloatKey.key (Prim2SF b)) as [[b1 b2] b3].
  destruct (FloatKey.key (Prim2SF c)) as [[c1 c2] c3].
  destruct Hk as [Hk | Hk]; [ lia | injection Hk as <- <- <-; lia ].
Qed.

(** From [a <= b] and [b < c]: [a < c]. *)
Lemma below_threshold (c a b : float) :
  Js.lt b c = true -> Js.ge b a = true -> Js.lt a c = true.
Proof.
  unfold Js.lt, Js.ge. intros H1 H2.
  destruct (ltb_not_nan _ _ H1) as [Hb Hc].
  destruct (leb_key _ _ H2) as (Ha & _ & Hk).
  apply FloatOrder.ltb_key in H1; [ | assumption | assumption ].
  apply FloatOrder.ltb_key; [ assumption | assumption | ].
  unfold FloatKey.lex_lt in *.
  destruct (FloatKey.key (Prim2SF a)) as [[a1 a2] a3].
  destruct (FloatKey.key (Prim2SF b)) as [[b1 b2] b3].
  destruct (FloatKey.key (Prim2SF c)) as [[c1 c2] c3].
  destruct Hk as [Hk | Hk]; [ lia | injection Hk as <- <- <-; lia ].
Qed.

Ltac by_threshold :=
  match goal with
  | H1 : Js.gt ?a ?c = true, H2 : Js.gt ?b ?c = false,
    H : Js.ge ?b ?a = true |- _ =>
      rewrite (above_threshold c a b H1 H) in H2; discriminate
  | H1 : Js.lt ?b ?c = true, H2 : Js.lt ?a ?c = false,
    H : Js.ge ?b ?a = true |- _ =>
      rewrite (below_threshold c a b H1 H) in H2; discriminate
  end.

Lemma volume_tier_monotone (a b : float) :
  Js.ge b a = true -> (Spec.volume_tier a <= Spec.volume_tier b)%Z.
Proof.
  intros H. unfold Spec.volume_tier.
  destruct (Js.gt a 10000) eqn:A1; destruct (Js.gt b 10000) eqn:B1;
    destruct (Js.gt a 1000) eqn:A2; destruct (Js.gt b 1000) eqn:B2;
    destruct (Js.gt a 100) eqn:A3; destruct (Js.gt b 100) eqn:B3;
    try lia; by_threshold.
Qed.

Lemma transaction_tier_monotone (a b : float) :
  Js.ge b a = true -> (Spec.transaction_tier a <= Spec.transaction_tier b)%Z.
Proof.
  intros H. unfold Spec.transaction_tier.
  destruct (Js.gt a 50) eqn:A1; destruct (Js.gt b 50) eqn:B1;
    destruct (Js.gt a 10) eqn:A2; destruct (Js.gt b 10) eqn:B2;
    try lia; by_threshold.
Qed.

Lemma turnover_tier_monotone (a b : float) :
  Js.ge b a = true -> (Spec.turnover_tier a <= Spec.turnover_tier b)%Z.
Proof.
  intros H. unfold Spec.turnover_tier.
  destruct (Js.gt a 0.1) eqn:A1; destruct (Js.gt b 0.1) eqn:B1;
    destruct (Js.gt a 0.01) eqn:A2; destruct (Js.gt b 0.01) eqn:B2;
    try lia; by_threshold.
Qed.

Lemma momentum_monotone (a b : float) :
  Js.ge b a = true ->
  (Spec.momentum_bonus a - Spec.momentum_penalty a
   <= Spec.momentum_bonus b - Spec.momentum_penalty b)%Z.
Proof.
  intros H. unfold Spec.momentum_bonus, Spec.momentum_penalty.
  destruct (Js.gt a 20) eqn:A1; destruct (Js.gt b 20) eqn:B1;
    destruct (Js.lt a (-50)) eqn:A2; destruct (Js.lt b (-50)) eqn:B2;
    try lia; by_threshold.
Qed.

(** The score never decreases when the 24h volume, the transaction
    count, the turnover and the 24h change do not decrease. *)
Theorem score_monotone (m1 m2 : Metrics) :
  Js.ge (vol24h m2) (vol24h m1) = true ->
  Js.ge (txns24h m2) (txns24h m1) = true ->
  Js.ge (volRatio m2) (volRatio m1) = true ->
  Js.ge (change24h m2) (change24h m1) = true ->
  (score m1 <= score m2)%Z.
Proof.
  intros Hv Ht Hr Hc. rewrite !score_spec. unfold Spec.score.
  pose proof (volume_tier_monotone _ _ Hv).
  pose proof (transaction_tier_monotone _ _ Ht).
  pose proof (turnover_tier_monotone _ _ Hr).
  pose proof (momentum_monotone _ _ Hc).
  lia.
Qed.

Lemma score_monotone_witness :
  (score (metrics samplePair) <= score (metrics scenarioPair))%Z.
Proof.
  apply (score_monotone (metrics samplePair) (metrics scenarioPair));
    reflexivity.
Defined.

Lemma tiers_not_negative (v t r : float) :
  (0 <= Spec.volume_tier v /\ 0 <= Spec.transaction_tier t
   /\ 0 <= Spec.turnover_tier r)%Z.
Proof.
  unfold Spec.volume_tier, Spec.transaction_tier, Spec.turnover_tier.
  repeat match goal with
         | |- context [if ?c then _ else _] => destruct c
         end;
    lia.
Qed.

(** The momentum bonus and the momentum penalty never apply together,
    and a pair is labelled dead exactly when the penalty applies (24h
    change below -50) and volume, transactions and turnover together earn
    at most one point. *)
Theorem dead_only_after_crash (p : Pair.t) :
  let m := metrics p in
  (Js.gt (change24h m) 20 = true -> Js.lt (change24h m) (-50) = false) /\
  (calculatePulse (Some p) = "dead" <->
   Js.lt (change24h m) (-50) = true /\
   (Spec.volume_tier (vol24h m) + Spec.transaction_tier (txns24h m)
    + Spec.turnover_tier (volRatio m) <= 1)%Z).
Proof.
  intros m.
  assert (Hex : Js.gt (change24h m) 20 = true ->
                Js.lt (change24h m) (-50) = false).
  { intros Hb. destruct (Js.lt (change24h m) (-50)) eqn:Hp;
      [ | reflexivity ].
    destruct (ltb_not_nan _ _ Hb) as [H20 Hc].
    destruct (ltb_not_nan _ _ Hp) as [_ H50].
    assert (E : Js.gt (-50) 20 = true)
      by (apply FloatOrder.gt_trans with (change24h m); assumption).
    vm_compute in E. discriminate. }
  split; [ exact Hex | ].
  rewrite calculatePulse_dead. fold m. rewrite score_spec.
  unfold Spec.score.
  destruct (tiers_not_negative (vol24h m) (txns24h m) (volRatio m))
    as (Tv & Tt & Tr).
  unfold Spec.momentum_bonus, Spec.momentum_penalty.
  destruct (Js.gt (change24h m) 20) eqn:Hb.
  - rewrite (Hex eq_refl). split; [ lia | intros [H _]; discriminate ].
  - destruct (Js.lt (change24h m) (-50)) eqn:Hp.
    + split; [ intros H; split; [ reflexivity | lia ] | intros [_ H]; lia ].
    + split; [ lia | intros [H _]; discriminate ].
Qed.

(** ** Results: addresses, fields, numbers and failures *)

Section ResultProperties.

Variable upstream : nat -> string -> Exchange.
Variable clock : nat -> string.
Variable parseFloat : option string -> float.
Variable numberToString : float -> string.

Lemma assemble_address (address : string) (now : nat) (pairs : list Pair.t) :
  Result.address (assemble clock parseFloat address now pairs) = address.
Proof. destruct pairs; reflexivity. Qed.

Lemma assemble_well_shaped (address : string) (now : nat)
  (pairs : list Pair.t) :
  well_shaped (assemble clock parseFloat address now pairs).
Proof.
  destruct pairs as [|first rest]; unfold well_shaped, assemble;
    cbn [Result.found Result.token Result.stats Result.pair
         Result.timestamp Result.pairCount Result.message Result.error
         Result.pulse].
  - repeat split. left. repeat split.
  - repeat split; try discriminate.
    exists (List.length (first :: rest)).
    split; [ reflexivity | simpl; lia ].
Qed.

Lemma settledAt_address (k : nat) (address : string) :
  Result.address (settledAt upstream clock parseFloat k address) = address.
Proof.
  unfold settledAt.
  destruct (state (pulseAt upstream clock parseFloat k address))
    as [r|m] eqn:E; [ | reflexivity ].
  apply pulseAt_returned in E. destruct E as (pairs & _ & ->).
  apply assemble_address.
Qed.

Lemma settledAt_well_shaped (k : nat) (address : string) :
  well_shaped (settledAt upstream clock parseFloat k address).
Proof.
  unfold settledAt.
  destruct (state (pulseAt upstream clock parseFloat k address))
    as [r|m] eqn:E.
  - apply pulseAt_returned in E. destruct E as (pairs & _ & ->).
    apply assemble_well_shaped.
  - unfold well_shaped, errorResult. cbn. repeat split.
    right. repeat split. discriminate.
Qed.

Lemma indexed_addresses (addresses : list string) :
  forall k,
    map (fun '(i, a) =>
           Result.address (settledAt upstream clock parseFloat i a))
        (combine (seq k (List.length addresses)) addresses)
    = addresses.
Proof.
  induction addresses as [|a rest IH]; intros k; [ reflexivity | ].
  cbn [List.length seq combine map]. rewrite settledAt_address, IH.
  reflexivity.
Qed.

Lemma pulses_addresses (addresses : list string) :
  forall k results,
    map state (pulsesFrom upstream clock parseFloat k addresses)
    = map Returned results ->
    map Result.address results = addresses /\ Forall well_shaped results.
Proof.
  induction addresses as [|a rest IH]; intros k [|r results] H;
    cbn [pulsesFrom map] in H; try discriminate.
  - split; [ reflexivity | constructor ].
  - injection H as Hr Hrest.
    apply pulseAt_returned in Hr. destruct Hr as (pairs & _ & ->).
    destruct (IH (S k) results Hrest) as [Ha Hs].
    split.
    + cbn [map]. rewrite assemble_address, Ha. reflexivity.
    + constructor; [ apply assemble_well_shaped | exact Hs ].
Qed.

(** Results stay with their addresses: the [i]-th result of
    [getBatchPulse], normal or error, carries the [i]-th address, and so
    do the results in the body of a 200 answer of the handler. *)
Theorem results_keep_addresses (req : Request) (addresses log : list string) :
  (exists results,
      state (fst (getBatchPulse upstream clock parseFloat addresses log))
      = Returned results /\
      map Result.address results = addresses) /\
  ((method req =? "OPTIONS") = false ->
   parseAddresses req = Some addresses ->
   status (fst (handler upstream clock parseFloat numberToString req log))
   = 200%nat ->
   map Result.address
     (resultsIn
        (body (fst (handler upstream clock parseFloat numberToString
                      req log))))
   = addresses).
Proof.
  split.
  - rewrite getBatchPulse_run. cbn [fst].
    eexists. split; [ apply all_returned, caughtFrom_settled | ].
    rewrite map_map.
    etransitivity; [ | apply (indexed_addresses addresses (List.length log)) ].
    apply map_ext. intros [i a]. reflexivity.
  - intros Hm Hp Hs.
    destruct (handler_ok upstream clock parseFloat numberToString
                req addresses log Hm Hp Hs)
      as (results & Hall & Hlen & Hresp).
    destruct (pulses_addresses addresses _ results Hall) as [Ha _].
    rewrite Hresp in *. unfold respondTo in *.
    destruct (formatOf req =? "summary").
    + destruct (map_outcome _ results); [ exact Ha | discriminate ].
    + destruct (List.length addresses =? 1)%nat eqn:E; [ | exact Ha ].
      apply Nat.eqb_eq in E. rewrite E in Hlen.
      destruct results as [|r [|r' results]]; try discriminate.
      exact Ha.
Qed.

(** Every result of [getBatchPulse] and every result in a body of the
    handler carries the fields of its kind: a found result has token,
    stats, pair, timestamp and a pair count of at least one, and neither
    message nor error; a result that is not found has none of these, and
    either the message of the empty pair list or an error. *)
Theorem results_well_shaped (req : Request) (addresses log : list string) :
  (forall results,
      state (fst (getBatchPulse upstream clock parseFloat addresses log))
      = Returned results ->
      Forall well_shaped results) /\
  Forall well_shaped
    (resultsIn
       (body (fst (handler upstream clock parseFloat numberToString
                     req log)))).
Proof.
  split.
  - intros results. rewrite getBatchPulse_run. cbn [fst]. intros H.
    apply all_returned in H. rewrite caughtFrom_settled in H.
    apply map_Returned_inj in H. subst results.
    apply Forall_forall. intros r Hr. apply in_map_iff in Hr.
    destruct Hr as ([i a] & <- & _). apply settledAt_well_shaped.
  - unfold handler.
    destruct (method req =? "OPTIONS"); [ constructor | ].
    destruct (parseAddresses req) as [parsed|]; [ | constructor ].
    destruct (10 <? List.length parsed)%nat; [ constructor | ].
    unfold bind. rewrite mapM_getPulse_run. cbn [ret fst].
    destruct (state (P.all _)) as [results|m] eqn:Hall; [ | constructor ].
    apply all_returned, pulses_addresses in Hall.
    destruct Hall as [_ Hall]. unfold respondTo.
    destruct (formatOf req =? "summary").
    + destruct (map_outcome _ results); [ exact Hall | constructor ].
    + destruct (List.length parsed =? 1)%nat; [ | exact Hall ].
      destruct Hall as [|r results Hr _]; cbn; constructor;
        [ exact Hr | constructor ].
Qed.

(** The numbers of the stats are never NaN, whatever the upstream sends
    and whatever [parseFloat] returns: price, mcap, 24h volume, 24h
    change and liquidity of a found result are numbers. *)
Theorem stats_are_numbers (address : string) (now : nat)
  (first : Pair.t) (rest : list Pair.t) :
  exists stats,
    Result.stats (assemble clock parseFloat address now (first :: rest))
    = Some stats /\
    FloatKey.not_nan (Result.price stats) /\
    FloatKey.not_nan (Result.mcap stats) /\
    FloatKey.not_nan (Result.volume24h stats) /\
    FloatKey.not_nan (Result.change24h stats) /\
    FloatKey.not_nan (Result.liquidity stats).
Proof.
  eexists. split; [ reflexivity | ].
  cbn [Result.price Result.mcap Result.volume24h Result.change24h
       Result.liquidity].
  repeat split; apply FloatOrder.or0_not_nan.
Qed.

(** [getPulse] issues exactly one GET.  It fails when the GET fails,
    with its message; when the status is not a 2xx one, with the status
    in the message, whatever the body; and when the body of a 2xx answer
    is not JSON, with the message of the parser.  It returns a result
    when a 2xx answer is a JSON object whose [pairs] is missing or a list
    of pair objects. *)
Theorem getPulse_failures (address : string) (log : list string) :
  let run := getPulse upstream clock parseFloat address log in
  let res := upstream (List.length log) (tokenUrl address) in
  snd run = (log ++ [tokenUrl address])%list /\
  (forall m, result res = NetworkError m -> state (fst run) = Thrown m) /\
  (forall status body,
      result res = HttpResponse status body ->
      res_ok status = false ->
      state (fst run)
      = Thrown ("Dexscreener API error: " ++ Js.nat_digits status)) /\
  (forall status m,
      result res = HttpResponse status (InvalidJson m) ->
      res_ok status = true ->
      state (fst run) = Thrown m) /\
  (forall status pairs,
      result res = HttpResponse status (JsonObject pairs) ->
      res_ok status = true ->
      exists r, state (fst run) = Returned r /\ Result.address r = address).
Proof.
  intros run res. unfold run. rewrite getPulse_run. cbn [fst snd].
  split; [ reflexivity | ].
  unfold pulseAt, pulseOf, P.and_then, pairsOf. cbn [state]. fold res.
  repeat split.
  - intros m H. rewrite H. reflexivity.
  - intros status body H Hok. rewrite H, Hok. reflexivity.
  - intros status m H Hok. rewrite H, Hok. reflexivity.
  - intros status pairs H Hok. rewrite H, Hok. cbn [negb].
    destruct pairs as [pairs|]; eexists;
      (split; [ reflexivity | apply assemble_address ]).
Qed.

End ResultProperties.

(** ** The status of every answer *)

Section HandlerStatus.

Variable upstream : nat -> string -> Exchange.
Variable clock : nat -> string.
Variable parseFloat : option string -> float.
Variable numberToString : float -> string.

Lemma pulsesFrom_nth (addresses : list string) :
  forall k i p,
    nth_error (pulsesFrom upstream clock parseFloat k addresses) i = Some p ->
    exists a,
      nth_error addresses i = Some a /\
      p = pulseAt upstream clock parseFloat (k + i) a.
Proof.
  induction addresses as [|a0 rest IH]; intros k [|i] p H;
    cbn [pulsesFrom nth_error] in *; try discriminate.
  - injection H as <-. exists a0. rewrite Nat.add_0_r.
    split; reflexivity.
  - destruct (IH (S k) i p H) as (a & Ha & ->). exists a.
    split; [ exact Ha | ]. f_equal. lia.
Qed.

(** Every answer carries the same four headers.  [OPTIONS] is answered
    200 with an empty body.  Any other request is answered 400 when it
    has no address parameter or more than 10 addresses, and 200 or 500
    otherwise: 500 whenever the pipeline of one of its addresses fails,
    and, under a format other than [summary], only then. *)
Theorem handler_status (req : Request) (log : list string) :
  let response :=
    fst (handler upstream clock parseFloat numberToString req log) in
  let failing addresses :=
    exists i a m,
      nth_error addresses i = Some a /\
      state (pulseAt upstream clock parseFloat (List.length log + i) a)
      = Thrown m in
  headers response = corsHeaders /\
  ((method req =? "OPTIONS") = true ->
   status response = 200%nat /\ body response = NoBody) /\
  ((method req =? "OPTIONS") = false ->
   (parseAddresses req = None -> status response = 400%nat) /\
   (forall addresses,
       parseAddresses req = Some addresses ->
       ((10 < List.length addresses)%nat -> status response = 400%nat) /\
       ((List.length addresses <= 10)%nat ->
        (status response = 200%nat \/ status response = 500%nat) /\
        (failing addresses -> status response = 500%nat) /\
        (formatOf req <> "summary" ->
         status response = 500%nat -> failing addresses)))).
Proof.
  intros response failing. unfold response, handler.
  destruct (method req =? "OPTIONS") eqn:Hm.
  - split; [ reflexivity | ].
    split; [ intros _; split; reflexivity | discriminate ].
  - destruct (parseAddresses req) as [parsed|] eqn:Hp.
    + destruct (10 <? List.length parsed)%nat eqn:Hn.
      * apply Nat.ltb_lt in Hn.
        split; [ reflexivity | ]. split; [ discriminate | ].
        intros _. split; [ discriminate | ].
        intros addresses E. injection E as <-.
        split; [ reflexivity | lia ].
      * apply Nat.ltb_ge in Hn. unfold bind.
        rewrite mapM_getPulse_run. cbn [ret fst].
        destruct (state (P.all _)) as [results|m] eqn:Hall.
        -- assert (Hok : forall i a m,
                      nth_error parsed i = Some a ->
                      state (pulseAt upstream clock parseFloat
                               (List.length log + i) a) = Thrown m ->
                      False).
           { intros i a m Ha Hthrown.
             destruct (proj2 (all_thrown
                                (pulsesFrom upstream clock parseFloat
                                   (List.length log) parsed))
                         (pulseAt upstream clock parseFloat
                            (List.length log + i) a) m)
               as [m' Hm'];
               [ apply nth_error_In with i; apply nth_error_pulsesFrom, Ha
               | exact Hthrown | congruence ]. }
           unfold respondTo.
           split.
           { destruct (formatOf req =? "summary");
               [ destruct (map_outcome _ results); reflexivity | ].
             destruct (_ =? 1)%nat; reflexivity. }
           split; [ discriminate | ].
           intros _. split; [ discriminate | ].
           intros addresses E. injection E as <-.
           split; [ lia | ]. intros _.
           split; [ | split ].
           ++ destruct (formatOf req =? "summary");
                [ destruct (map_outcome _ results); auto | ].
              destruct (_ =? 1)%nat; auto.
           ++ intros (i & a & m & Ha & Hthrown). exfalso.
              exact (Hok i a m Ha Hthrown).
           ++ intros Hf. apply String.eqb_neq in Hf. rewrite Hf.
              destruct (_ =? 1)%nat; discriminate.
        -- split; [ reflexivity | ]. split; [ discriminate | ].
           intros _. split; [ discriminate | ].
           intros addresses E. injection E as <-.
           split; [ lia | ]. intros _.
           split; [ right; reflexivity | ].
           split; [ reflexivity | intros _ _ ].
           destruct (proj1 (all_thrown
                              (pulsesFrom upstream clock parseFloat
                                 (List.length log) parsed)) m Hall)
             as (p & Hin & Hp').
           apply In_nth_error in Hin. destruct Hin as [i Hi].
           destruct (pulsesFrom_nth parsed _ i p Hi) as (a & Ha & ->).
           exists i, a, m. split; [ exact Ha | exact Hp' ].
    + split; [ reflexivity | ]. split; [ discriminate | ].
      intros _. split; [ reflexivity | discriminate ].
Qed.

End HandlerStatus.

(** ** Examples *)

Example mainPair_tie :
  mainPairOf [volumePair 5; volumePair 9; scenarioPair; volumePair 15000]
             (volumePair 5)
  = scenarioPair.
Proof. reflexivity. Qed.

Example found_dead :
  calculatePulse (Some (changePair (-60))) = "dead" /\
  calculatePulse (Some Pair.empty) = "critical" /\
  calculatePulse None = "dead".
Proof. repeat split. Qed.

Example toFixed_examples :
  Js.toFixed sampleNumberToString 0.0000431 6 = "0.000043" /\
  Js.toFixed sampleNumberToString (42809 / 1e3) 1 = "42.8" /\
  Js.toFixed sampleNumberToString (-42.88) 1 = "-42.9" /\
  Js.toFixed sampleNumberToString 0.5 0 = "1" /\
  Js.toFixed sampleNumberToString 2.5 0 = "3" /\
  Js.toFixed sampleNumberToString 1.005 2 = "1.00" /\
  Js.toFixed sampleNumberToString (-0.01) 1 = "-0.0" /\
  Js.toFixed sampleNumberToString 999.5 0 = "1000" /\
  Js.toFixed sampleNumberToString 0 1 = "0.0" /\
  Js.toFixed sampleNumberToString 123456789 0 = "123456789".
Proof. vm_compute. repeat split. Qed.

Example split_examples :
  Js.split "," "a, b,,c" = ["a"; " b"; EmptyString; "c"] /\
  Js.split "," "," = [EmptyString; EmptyString] /\
  Js.split "," EmptyString = [EmptyString] /\
  Js.trim "  a b  " = "a b" /\ Js.trim "   " = EmptyString /\
  Js.toUpperCase "critical" = "CRITICAL".
Proof. vm_compute. repeat split. Qed.
